(** * Deploy task plugin of warpdrive (taskplugin/deploy.go)

    Shallow embedding of [DeployTaskPlugin.Run], [fetchRelatedWorkloads],
    [DeployTaskPlugin.Wait], [workLoadDeployStat] and
    [getResourcesPodOwnerUID].  Every call to the cluster or to the aslan
    HTTP service is an oracle: the environment records what the call
    returns.  A Go [error] is represented by its [Error()] text. *)

From Stdlib Require Import String List Bool ZArith Lia Permutation Sorted.
Import ListNotations.
Open Scope string_scope.

(** ** Go helpers *)

(** A result of a Go call returning [(T, error)]. *)
Inductive result (A : Type) : Type :=
| Ok (a : A)
| Err (e : string).
Arguments Ok {A} a.
Arguments Err {A} e.

(** [errors.WithMessage(err, msg)] / [errors.WithMessagef]: "msg: cause". *)
Definition with_message (e msg : string) : string := msg ++ ": " ++ e.

(** [strings.Join(xs, sep)] *)
Fixpoint join (sep : string) (xs : list string) : string :=
  match xs with
  | [] => ""
  | [x] => x
  | x :: xs' => x ++ sep ++ join sep xs'
  end.

Definition newline : string := String (Ascii.ascii_of_nat 10) "".

(** [strings.TrimSuffix(s, suffix)] *)
Definition TrimSuffix (s suffix : string) : string :=
  let n := String.length s in
  let k := String.length suffix in
  if (k <=? n)%nat && String.eqb (substring (n - k) k s) suffix
  then substring 0 (n - k) s else s.

(** ** setting and config constants *)

Module setting.
Definition Deployment : string := "Deployment".
Definition StatefulSet : string := "StatefulSet".
Definition CronJob : string := "CronJob".
(** pod phases compared against the wrapper's reported pod status *)
Definition StatusRunning : string := "Running".
Definition StatusSucceeded : string := "Succeeded".
End setting.

(** config.Status *)
Inductive Status : Type :=
| StatusCreated | StatusRunning | StatusPassed | StatusFailed
| StatusTimeout | StatusCancelled | StatusOther (s : string).

Definition is_terminal (s : Status) : bool :=
  match s with
  | StatusPassed | StatusFailed | StatusTimeout | StatusCancelled => true
  | _ => false
  end.

(** ** Data model (task.Deploy, task.Resource, workloads, pods) *)

(** a label map [map[string]string] *)
Definition Labels := list (string * string).

Record Resource : Type := mkResource {
  Kind : string;
  Container : string;
  Origin : string;
  Name : string;
  PodOwnerUID : string
}.

Definition set_uid (r : Resource) (u : string) : Resource :=
  mkResource (Kind r) (Container r) (Origin r) (Name r) u.

Record Task : Type := mkTask {
  EnvName : string;
  ProductName : string;
  Namespace : string;
  ServiceName : string;
  ServiceType : string;
  ContainerName : string;
  Image : string;
  SkipWaiting : bool;
  TaskStatus : Status;
  Error : string;
  ReplaceResources : list Resource;
  RelatedPodLabels : list Labels
}.

Definition set_status (t : Task) (s : Status) : Task :=
  mkTask (EnvName t) (ProductName t) (Namespace t) (ServiceName t)
    (ServiceType t) (ContainerName t) (Image t) (SkipWaiting t) s
    (Error t) (ReplaceResources t) (RelatedPodLabels t).

Definition set_error (t : Task) (e : string) : Task :=
  mkTask (EnvName t) (ProductName t) (Namespace t) (ServiceName t)
    (ServiceType t) (ContainerName t) (Image t) (SkipWaiting t)
    (TaskStatus t) e (ReplaceResources t) (RelatedPodLabels t).

Definition set_resources (t : Task) (rs : list Resource) : Task :=
  mkTask (EnvName t) (ProductName t) (Namespace t) (ServiceName t)
    (ServiceType t) (ContainerName t) (Image t) (SkipWaiting t)
    (TaskStatus t) (Error t) rs (RelatedPodLabels t).

Definition set_labels (t : Task) (ls : list Labels) : Task :=
  mkTask (EnvName t) (ProductName t) (Namespace t) (ServiceName t)
    (ServiceType t) (ContainerName t) (Image t) (SkipWaiting t)
    (TaskStatus t) (Error t) (ReplaceResources t) ls.

(** corev1.Container (name and image) *)
Record ContainerSpec : Type := mkContainerSpec { c_name : string; c_image : string }.

(** a workload as Run sees it: Deployment, StatefulSet or CronJob
    (batch/v1 or batch/v1beta1) with its pod template *)
Record Workload : Type := mkWorkload {
  w_namespace : string;
  w_name : string;
  w_containers : list ContainerSpec;
  w_template_labels : Labels
}.

(** appsv1.Deployment and appsv1.StatefulSet as Wait sees them *)
Record WorkloadStatus : Type := mkWorkloadStatus {
  ws_name : string;
  ws_uid : string;
  ws_generation : Z;
  ws_observed_generation : Z;
  ws_replicas : Z;           (* spec.replicas, the desired count *)
  ws_updated_replicas : Z;
  ws_available_replicas : Z
}.

(** appsv1.ReplicaSet: its UID, the UID of its controller owner reference
    and its creation timestamp *)
Record ReplicaSet : Type := mkReplicaSet {
  rs_uid : string;
  rs_controller : option string;
  rs_creation : Z
}.

(** [metav1.IsControlledBy(rs, deployment)] *)
Definition IsControlledBy (rs : ReplicaSet) (d : WorkloadStatus) : bool :=
  match rs_controller rs with
  | Some u => String.eqb u (ws_uid d)
  | None => false
  end.

(** corev1.ContainerStatus: [Some (reason, message)] when [State.Waiting]
    is set *)
Record ContainerStatus : Type := mkContainerStatus {
  cs_waiting : option (string * string)
}.

(** one container of [wrapper.Pod(pod).Resource()] *)
Record ContainerView : Type := mkContainerView {
  cv_status : string;
  cv_reason : string;
  cv_message : string
}.

(** corev1.Pod.  [wrapper.Pod(pod).Resource()] is not among the sources:
    the status and containers it reports are recorded with the pod, as
    observed. *)
Record Pod : Type := mkPod {
  pod_name : string;
  pod_owner_uids : list string;
  pod_init_statuses : list ContainerStatus;
  pod_statuses : list ContainerStatus;
  pod_view_status : string;
  pod_view_containers : list ContainerView
}.

(** Modelled from the spec: [wrapper.Pod(pod).IsOwnerMatched(uid)], whose
    source is not given; a pod matches the ownership fingerprint when one of
    its owner references carries that UID. *)
Definition IsOwnerMatched (p : Pod) (uid : string) : bool :=
  existsb (String.eqb uid) (pod_owner_uids p).

(** ** Run *)

(** What the external calls made by Run return.  Update calls are keyed by
    (namespace, name); gets by the object name in the task's namespace. *)
Record RunEnv : Type := mkRunEnv {
  DeployClusterID_set : bool;                    (* DeployClusterID != "" *)
  env_rest_config : option string;               (* GetRESTConfig error *)
  env_kube_client : option string;               (* GetKubeClient error *)
  env_kube_clientset : bool * option string;     (* clientset non-nil, error *)
  env_server_version : option string;            (* ServerVersion error *)
  env_product : result bool;                     (* IsSleeping *)
  env_service : result string;                   (* WorkloadType *)
  env_list_deployments : result (list Workload);
  env_list_statefulsets : result (list Workload);
  env_list_cronjobs : result (list Workload * list Workload);
  (* rendered manifests; [None] when the YAML does not decode,
     [Some (kind, name)] otherwise *)
  env_manifests : result (list (option (string * string)));
  env_get_deployment : string -> result (option Workload);
  env_get_statefulset : string -> result (option Workload);
  (* cronJob, cronJobBeta, found *)
  env_get_cronjob : string -> result (option Workload * option Workload * bool);
  env_update_deployment : string -> string -> option string;
  env_update_statefulset : string -> string -> option string;
  env_update_cronjob : string -> string -> bool -> option string
}.

(** the four slices returned by fetchRelatedWorkloads *)
Record Workloads : Type := mkWorkloads {
  deployments : list Workload;
  statefulSets : list Workload;
  cronJobs : list Workload;
  cronJobBetas : list Workload
}.

Definition add_deploy (a : Workloads) (w : Workload) : Workloads :=
  mkWorkloads (deployments a ++ [w]) (statefulSets a) (cronJobs a) (cronJobBetas a).
Definition add_sts (a : Workloads) (w : Workload) : Workloads :=
  mkWorkloads (deployments a) (statefulSets a ++ [w]) (cronJobs a) (cronJobBetas a).
Definition add_cron (a : Workloads) (w : Workload) : Workloads :=
  mkWorkloads (deployments a) (statefulSets a) (cronJobs a ++ [w]) (cronJobBetas a).
Definition add_cron_beta (a : Workloads) (w : Workload) : Workloads :=
  mkWorkloads (deployments a) (statefulSets a) (cronJobs a) (cronJobBetas a ++ [w]).

(** the manifest loop of fetchWorkloadsForImportedService *)
Fixpoint imported_loop (env : RunEnv) (ms : list (option (string * string)))
    (acc : Workloads) : Workloads :=
  match ms with
  | [] => acc
  | None :: ms' => imported_loop env ms' acc        (* decode error: continue *)
  | Some (kind, name) :: ms' =>
      let acc' :=
        if String.eqb kind setting.Deployment then
          match env_get_deployment env name with
          | Ok (Some d) => add_deploy acc d
          | _ => acc
          end
        else if String.eqb kind setting.StatefulSet then
          match env_get_statefulset env name with
          | Ok (Some s) => add_sts acc s
          | _ => acc
          end
        else if String.eqb kind setting.CronJob then
          match env_get_cronjob env name with
          | Ok (c, b, true) =>
              let acc1 := match c with Some c => add_cron acc c | None => acc end in
              match b with Some b => add_cron_beta acc1 b | None => acc1 end
          | _ => acc
          end
        else acc in
      imported_loop env ms' acc'
  end.

Definition fetchWorkloadsForImportedService (env : RunEnv) : result Workloads :=
  match env_manifests env with
  | Err e => Err e
  | Ok ms => Ok (imported_loop env ms (mkWorkloads [] [] [] []))
  end.

(** fetchRelatedWorkloads; the boolean records whether the manifest
    fallback fetchWorkloadsForImportedService was invoked. *)
Definition fetchRelatedWorkloads (env : RunEnv) : result Workloads * bool :=
  match env_list_deployments env with
  | Err e => (Err e, false)
  | Ok ds =>
      match env_list_statefulsets env with
      | Err e => (Err e, false)
      | Ok ss =>
          match env_list_cronjobs env with
          | Err e => (Err e, false)
          | Ok (cs, bs) =>
              if (0 <? length ds)%nat || (0 <? length ss)%nat
                 || (0 <? length cs)%nat || (0 <? length bs)%nat
              then (Ok (mkWorkloads ds ss cs bs), false)
              else (fetchWorkloadsForImportedService env, true)
          end
      end
  end.

(** first (workload, container) in iteration order whose container name is
    [name]: the labelled double loops of Run, and the single loop over one
    workload's containers, both stop at the first match *)
Fixpoint first_match (name : string) (ws : list Workload)
    : option (Workload * ContainerSpec) :=
  match ws with
  | [] => None
  | w :: ws' =>
      match find (fun c => String.eqb (c_name c) name) (w_containers w) with
      | Some c => Some (w, c)
      | None => first_match name ws'
      end
  end.

(** state of Run's resolution phase: the task, [replaced], and [Some err]
    once a branch has assigned [err] and returned *)
Definition RState := (Task * bool * option string)%type.

(** one image-replacement loop of Run: patch the first matching container,
    append its [task.Resource] and, on the unknown-WorkloadType path, its
    pod-template labels *)
Definition replace_in (kind path : string)
    (update : string -> string -> option string) (record_labels : bool)
    (name : string) (ws : list Workload) (st : RState) : RState :=
  let '(t, replaced, _) := st in
  match first_match name ws with
  | None => st
  | Some (w, c) =>
      match update (w_namespace w) (w_name w) with
      | Some e =>
          (t, replaced,
           Some (with_message e ("failed to update container image in "
                  ++ Namespace t ++ "/" ++ path ++ "/" ++ w_name w ++ "/" ++ c_name c)))
      | None =>
          let t1 := set_resources t (ReplaceResources t
                      ++ [mkResource kind (c_name c) (c_image c) (w_name w) ""]) in
          let t2 := if record_labels
                    then set_labels t1 (RelatedPodLabels t1 ++ [w_template_labels w])
                    else t1 in
          (t2, true, None)
      end
  end.

(** continue with [k] unless a branch has returned *)
Definition and_then (st : RState) (k : RState -> RState) : RState :=
  match st with
  | (_, _, Some _) => st
  | _ => k st
  end.

(** the [serviceInfo.WorkloadType == ""] branch of Run *)
Definition resolve_unknown (env : RunEnv) (name : string) (t : Task) : RState :=
  match fst (fetchRelatedWorkloads env) with
  | Err e => (t, false, Some (with_message e "failed to fetch related workloads"))
  | Ok wl =>
      and_then (replace_in setting.Deployment "deployments"
                  (env_update_deployment env) true name (deployments wl) (t, false, None))
      (fun st => and_then (replace_in setting.StatefulSet "statefulsets"
                  (env_update_statefulset env) true name (statefulSets wl) st)
      (fun st => and_then (replace_in setting.CronJob "statefulsets"
                  (fun ns n => env_update_cronjob env ns n false) true name (cronJobs wl) st)
      (fun st => replace_in setting.CronJob "statefulsets"
                  (fun ns n => env_update_cronjob env ns n false) true name (cronJobBetas wl) st)))
  end.

(** the [switch serviceInfo.WorkloadType] branch of Run *)
Definition resolve_known (env : RunEnv) (name wt : string) (t : Task) : RState :=
  if String.eqb wt setting.StatefulSet then
    match env_get_statefulset env (ServiceName t) with
    | Err e => (t, false, Some e)
    | Ok None => (t, false, Some ("statefulset: " ++ ServiceName t ++ " not found"))
    | Ok (Some s) =>
        replace_in setting.StatefulSet "statefulsets" (env_update_statefulset env)
          false name [s] (t, false, None)
    end
  else if String.eqb wt setting.Deployment then
    match env_get_deployment env (ServiceName t) with
    | Err e => (t, false, Some e)
    | Ok None => (t, false, Some ("deployment: " ++ ServiceName t ++ " not found"))
    | Ok (Some d) =>
        replace_in setting.Deployment "deployments" (env_update_deployment env)
          false name [d] (t, false, None)
    end
  else if String.eqb wt setting.CronJob then
    match env_get_cronjob env (ServiceName t) with
    | Err e => (t, false, Some (with_message e ("failed to get cronjob " ++ ServiceName t)))
    | Ok (_, _, false) => (t, false, Some ("cronJob: " ++ ServiceName t ++ " not found"))
    | Ok (c, b, true) =>
        let upd := fun ns n => env_update_cronjob env ns n false in
        let st1 := match c with
                   | Some c => replace_in setting.CronJob "cronJob" upd false name [c] (t, false, None)
                   | None => (t, false, None)
                   end in
        and_then st1 (fun st1 =>
          match b with
          | Some b => replace_in setting.CronJob "cronJob" upd false name [b] st1
          | None => st1
          end)
    end
  else (t, false, None).

(** outcome of the statements of Run before the service lookup *)
Inductive Flow : Type :=
| Continue                       (* fall through; [err] is reassigned next *)
| Return (err : option string)   (* [return] with the named [err] *)
| Panic (err : option string).   (* nil ClientSet dereferenced *)

(** lines 151-187: cluster clients, server version, product info.  When
    [GetKubeClientSet] fails the branch assigns [err] but does not return;
    [p.ClientSet] is then whatever the call returned. *)
Definition run_prepare (env : RunEnv) (t : Task) : Flow :=
  let after_clients (clientset_nonnil : bool) (err : option string) : Flow :=
    if negb clientset_nonnil then Panic err else
    match env_server_version env with
    | Some e => Return (Some (with_message e "failed to get kubernetes server version"))
    | None =>
        (* productInfo, err := GetProductInfo(...) reassigns err *)
        match env_product env with
        | Err e => Return (Some (with_message e ("failed to get product "
                                  ++ Namespace t ++ "/" ++ ServiceName t)))
        | Ok true => Return (Some ("product " ++ ProductName t ++ "/" ++ EnvName t
                                  ++ " is sleeping"))
        | Ok false => Continue
        end
    end in
  if DeployClusterID_set env then
    match env_rest_config env with
    | Some e => Return (Some (with_message e "can't get k8s rest config"))
    | None =>
        match env_kube_client env with
        | Some e => Return (Some (with_message e "can't init k8s client"))
        | None =>
            let '(nonnil, oe) := env_kube_clientset env in
            match oe with
            | Some e => after_clients nonnil (Some (with_message e "failed to init k8s clientset"))
            | None => after_clients nonnil None
            end
        end
    end
  else after_clients true None.

Inductive Exit : Type := ExitReturn | ExitPanic.

(** the body of Run: the task it leaves, the final value of the named
    [err], and how it exits *)
Definition run_body (env : RunEnv) (t : Task) : Task * option string * Exit :=
  match run_prepare env t with
  | Return err => (t, err, ExitReturn)
  | Panic err => (t, err, ExitPanic)
  | Continue =>
      let containerName := TrimSuffix (ContainerName t) ("_" ++ ServiceName t) in
      match env_service env with
      | Err e => (t, Some e, ExitReturn)
      | Ok wt =>
          let '(t1, replaced, oe) :=
            if String.eqb wt "" then resolve_unknown env containerName t
            else resolve_known env containerName wt t in
          match oe with
          | Some e => (t1, Some e, ExitReturn)
          | None =>
              if replaced then (t1, None, ExitReturn)
              else (t1, Some ("container " ++ containerName ++ " is not found in resources "),
                    ExitReturn)
          end
      end
  end.

(** the deferred failure sink *)
Definition finalize (err : option string) (t : Task) : Task :=
  match err with
  | Some e => set_error (set_status t StatusFailed) e
  | None => t
  end.

Definition Run (env : RunEnv) (t : Task) : Task * Exit :=
  let '(t', err, ex) := run_body env t in (finalize err t', ex).

(** Complete is a no-op *)
Definition Complete (t : Task) : Task := t.

(** ** Other helpers of the plugin *)

(** [m[k]] on a Go [map[string]string]: the zero value [""] when [k] is
    absent (keys are unique, so the first binding is the only one) *)
Definition map_get (m : list (string * string)) (k : string) : string :=
  match find (fun kv => String.eqb (fst kv) k) m with
  | Some (_, v) => v
  | None => ""
  end.

(** serviceDeployed; [strategy] is [None] for the nil map.  The value of
    [setting.ServiceDeployStrategyImport] is a parameter. *)
Definition serviceDeployed (ServiceDeployStrategyImport : string)
    (strategy : option (list (string * string))) (serviceName : string) : bool :=
  match strategy with
  | None => true
  | Some m =>
      if String.eqb (map_get m serviceName) ServiceDeployStrategyImport then false
      else true
  end.

(** TaskTimeout, on the task's [Timeout] field: the value it leaves in the
    field and the value it returns.  The value of [setting.DeployTimeout] is
    a parameter. *)
Definition TaskTimeout (DeployTimeout : Z) (timeout : Z) : Z * Z :=
  let timeout' := if (timeout =? 0)%Z then DeployTimeout else timeout in
  (timeout', timeout').

(** ** Wait *)

(** What the cluster answers on one tick: gets by name in the task's
    namespace, ReplicaSets listed with a Deployment's selector (the
    selector conversion included), pods listed with a label selector. *)
Record Cluster : Type := mkCluster {
  cl_get_deployment : string -> result (option WorkloadStatus);
  cl_get_statefulset : string -> result (option WorkloadStatus);
  cl_list_replicasets : WorkloadStatus -> result (list ReplicaSet);
  cl_list_pods : Labels -> result (list Pod)
}.

(** Modelled from the spec: [wrapper.Deployment(d).Ready()], whose source is
    not given: observed generation caught up with the desired generation,
    updated and available replicas equal to the desired count. *)
Definition deployment_ready (d : WorkloadStatus) : bool :=
  (ws_generation d <=? ws_observed_generation d)%Z
  && (ws_updated_replicas d =? ws_replicas d)%Z
  && (ws_available_replicas d =? ws_replicas d)%Z.

(** Modelled from the spec: [wrapper.StatefulSet(s).Ready()], whose source
    is not given: the analogous replica and generation match. *)
Definition statefulset_ready (s : WorkloadStatus) : bool :=
  (ws_generation s <=? ws_observed_generation s)%Z
  && (ws_updated_replicas s =? ws_replicas s)%Z
  && (ws_available_replicas s =? ws_replicas s)%Z.

(** the waiting reasons of the switch in workLoadDeployStat *)
Definition fatal_reason (r : string) : bool :=
  existsb (String.eqb r)
    ["ImagePullBackOff"; "ErrImagePull"; "CrashLoopBackOff"; "ErrImageNeverPull"].

Fixpoint scan_statuses (podName : string) (css : list ContainerStatus) : option string :=
  match css with
  | [] => None
  | cs :: css' =>
      match cs_waiting cs with
      | Some (reason, msg) =>
          if fatal_reason reason
          then Some ("pod: " ++ podName ++ ", " ++ reason ++ ": " ++ msg)
          else scan_statuses podName css'
      | None => scan_statuses podName css'
      end
  end.

Fixpoint scan_pods (ownerUID : string) (pods : list Pod) : option string :=
  match pods with
  | [] => None
  | p :: ps =>
      if negb (IsOwnerMatched p ownerUID) then scan_pods ownerUID ps
      else match scan_statuses (pod_name p) (pod_init_statuses p ++ pod_statuses p) with
           | Some e => Some e
           | None => scan_pods ownerUID ps
           end
  end.

(** workLoadDeployStat: [Some err] is the returned error *)
Fixpoint workLoadDeployStat (c : Cluster) (labelMaps : list Labels) (ownerUID : string)
    : option string :=
  match labelMaps with
  | [] => None
  | l :: ls =>
      match cl_list_pods c l with
      | Err e => Some e
      | Ok pods =>
          match scan_pods ownerUID pods with
          | Some e => Some e
          | None => workLoadDeployStat c ls ownerUID
          end
      end
  end.

(** the less function given to sort.Slice:
    [owned[i].CreationTimestamp.After(owned[j].CreationTimestamp.Time)] *)
Definition newer (a b : ReplicaSet) : bool := (rs_creation b <? rs_creation a)%Z.

(** outcome of getResourcesPodOwnerUID *)
Inductive Setup : Type :=
| SetupOk (rs : list Resource)
| SetupErr (partial : list Resource) (e : string)
| SetupPanic.      (* the getter found nothing and its nil result is dereferenced *)

(** Wait's statuses: loop still polling when the events run out *)
Inductive WaitEnd : Type := WaitReturned | WaitPanicked | WaitPolling.

(** what the select of the poll loop picks on each iteration, with the
    cluster seen by that branch *)
Inductive Event : Type :=
| EvDone
| EvTimeout (c : Cluster)
| EvDefault (c : Cluster).

Definition IsTaskDone (t : Task) : bool :=
  match TaskStatus t with
  | StatusCreated | StatusRunning => false
  | _ => true
  end.

Definition IsTaskFailed (t : Task) : bool :=
  match TaskStatus t with
  | StatusFailed | StatusTimeout | StatusCancelled => true
  | _ => false
  end.

(** the deadline branch: messages of the containers reported by the pod
    wrapper *)
Definition container_message (cv : ContainerView) : string :=
  "Status: " ++ cv_status cv ++ ", Reason: " ++ cv_reason cv ++ ", Message: " ++ cv_message cv.

Fixpoint collect_containers (cs : list ContainerView) (msg : list string) : list string :=
  match cs with
  | [] => msg
  | cv :: cs' =>
      collect_containers cs'
        (if negb (String.eqb (cv_message cv) "") then msg ++ [container_message cv] else msg)
  end.

Definition pod_not_settled (p : Pod) : bool :=
  negb (String.eqb (pod_view_status p) setting.StatusRunning)
  && negb (String.eqb (pod_view_status p) setting.StatusSucceeded).

Fixpoint collect_pods (pods : list Pod) (msg : list string) : list string :=
  match pods with
  | [] => msg
  | p :: ps =>
      collect_pods ps (if pod_not_settled p then collect_containers (pod_view_containers p) msg else msg)
  end.

Fixpoint timeout_scan (c : Cluster) (labelMaps : list Labels) (msg : list string)
    : result (list string) :=
  match labelMaps with
  | [] => Ok msg
  | l :: ls =>
      match cl_list_pods c l with
      | Err e => Err e
      | Ok pods => timeout_scan c ls (collect_pods pods msg)
      end
  end.

Definition wait_timeout (c : Cluster) (t : Task) : Task :=
  let t1 := set_status t StatusTimeout in
  match timeout_scan c (RelatedPodLabels t1) [] with
  | Err e => set_error t1 e
  | Ok [] => t1
  | Ok msg => set_error t1 (join newline msg)
  end.

(** outcome of the resource loop of the default branch *)
Inductive Tick : Type :=
| TickFailed (e : string)
| TickReady (ready : bool).

(** the labelled loop [L] of the default branch, threading [ready] and the
    outer [err] *)
Fixpoint tick_loop (c : Cluster) (labelMaps : list Labels) (rs : list Resource)
    (ready : bool) (err : option string) : Tick :=
  match rs with
  | [] => TickReady ready
  | r :: rs' =>
      match workLoadDeployStat c labelMaps (PodOwnerUID r) with
      | Some e => TickFailed e
      | None =>
          if String.eqb (Kind r) setting.Deployment then
            let '(ready', err') :=
              match cl_get_deployment c (Name r) with
              | Err e => (false, Some e)
              | Ok None => (false, err)
              | Ok (Some d) => (deployment_ready d, err)
              end in
            if negb ready' then TickReady false else tick_loop c labelMaps rs' ready' err'
          else if String.eqb (Kind r) setting.StatefulSet then
            let '(ready', err') :=
              match cl_get_statefulset c (Name r) with
              | Err e => (false, Some e)
              | Ok s =>
                  match err, s with
                  | Some _, _ => (false, err)
                  | None, None => (false, err)
                  | None, Some s => (statefulset_ready s, err)
                  end
              end in
            if negb ready' then TickReady false else tick_loop c labelMaps rs' ready' err'
          else tick_loop c labelMaps rs' ready err
      end
  end.

Fixpoint wait_loop (events : list Event) (t : Task) : Task * WaitEnd :=
  match events with
  | [] => (t, WaitPolling)
  | EvDone :: _ => (set_status t StatusCancelled, WaitReturned)
  | EvTimeout c :: _ => (wait_timeout c t, WaitReturned)
  | EvDefault c :: events' =>
      match tick_loop c (RelatedPodLabels t) (ReplaceResources t) true None with
      | TickFailed e => (set_error (set_status t StatusFailed) e, WaitReturned)
      | TickReady ready =>
          let t' := if ready then set_status t StatusPassed else t in
          if IsTaskDone t' then (t', WaitReturned) else wait_loop events' t'
      end
  end.

Section WithSort.

(** [sort.Slice] of the Go standard library, with the given less function *)
Variable sort_slice : (ReplicaSet -> ReplicaSet -> bool) -> list ReplicaSet -> list ReplicaSet.

Fixpoint owner_uid_loop (c : Cluster) (rs : list Resource) (acc : list Resource) : Setup :=
  match rs with
  | [] => SetupOk acc
  | r :: rs' =>
      if String.eqb (Kind r) setting.StatefulSet then
        match cl_get_statefulset c (Name r) with
        | Err e => SetupErr acc e
        | Ok None => SetupPanic
        | Ok (Some s) => owner_uid_loop c rs' (acc ++ [set_uid r (ws_uid s)])
        end
      else if String.eqb (Kind r) setting.Deployment then
        match cl_get_deployment c (Name r) with
        | Err e => SetupErr acc e
        | Ok None => SetupPanic
        | Ok (Some d) =>
            (* time.Sleep(3 * time.Second), then list the ReplicaSets *)
            match cl_list_replicasets c d with
            | Err e => SetupErr acc e
            | Ok replicaSets =>
                let owned := filter (fun x => IsControlledBy x d) replicaSets in
                match owned with
                | [] => SetupErr acc ("no replicaset found for deployment: " ++ ws_name d)
                | _ =>
                    match sort_slice newer owned with
                    | top :: _ => owner_uid_loop c rs' (acc ++ [set_uid r (rs_uid top)])
                    | [] => SetupPanic
                    end
                end
            end
        end
      else owner_uid_loop c rs' (acc ++ [r])
  end.

Definition getResourcesPodOwnerUID (c : Cluster) (rs : list Resource) : Setup :=
  owner_uid_loop c rs [].

(** Wait, with the cluster seen while computing the fingerprints *)
Definition Wait (setup : Cluster) (events : list Event) (t : Task) : Task * WaitEnd :=
  if SkipWaiting t then (set_status t StatusPassed, WaitReturned)
  else
    match getResourcesPodOwnerUID setup (ReplaceResources t) with
    | SetupErr _ e => (set_error t ("get resource owner info error: " ++ e), WaitReturned)
    | SetupPanic => (t, WaitPanicked)
    | SetupOk rs => wait_loop events (set_resources t rs)
    end.

End WithSort.

(** an insertion sort meeting sort.Slice's contract, for concrete runs *)
Fixpoint insert_by (less : ReplicaSet -> ReplicaSet -> bool) (x : ReplicaSet)
    (l : list ReplicaSet) : list ReplicaSet :=
  match l with
  | [] => [x]
  | y :: l' => if less y x then y :: insert_by less x l' else x :: l
  end.

Definition insertion_sort (less : ReplicaSet -> ReplicaSet -> bool) (l : list ReplicaSet)
    : list ReplicaSet :=
  fold_right (insert_by less) [] l.

(** ** Concrete inputs *)

Definition task0 : Task :=
  mkTask "dev" "shop" "shop-dev" "myservice" "k8s" "api_myservice" "repo/app:2.0"
    false StatusRunning "" [] [].

Definition deploy_w : Workload :=
  mkWorkload "shop-dev" "myservice" [mkContainerSpec "api" "repo/app:1.0"] [("app", "myservice")].

Definition sts_w : Workload :=
  mkWorkload "shop-dev" "myservice-db" [mkContainerSpec "api" "repo/app:1.0"] [("app", "myservice-db")].

(** every call succeeds; the service is a known Deployment *)
Definition env_ok : RunEnv :=
  mkRunEnv false None None (true, None) None (Ok false) (Ok "Deployment")
    (Ok []) (Ok []) (Ok ([], [])) (Ok [])
    (fun n => if String.eqb n "myservice" then Ok (Some deploy_w) else Ok None)
    (fun _ => Ok None)
    (fun _ => Ok (None, None, false))
    (fun _ _ => None) (fun _ _ => None) (fun _ _ _ => None).

Example run_env_ok :
  Run env_ok task0 =
  (mkTask "dev" "shop" "shop-dev" "myservice" "k8s" "api_myservice" "repo/app:2.0"
     false StatusRunning ""
     [mkResource "Deployment" "api" "repo/app:1.0" "myservice" ""] [], ExitReturn).
Proof. reflexivity. Qed.

Example trim_container_name : TrimSuffix "api_myservice" "_myservice" = "api".
Proof. reflexivity. Qed.

(** a remote cluster whose clientset call returns a clientset together with
    an error; everything else succeeds *)
Definition env_clientset_err : RunEnv :=
  mkRunEnv true None None (true, Some "dial tcp 10.0.0.1:443: i/o timeout") None
    (Ok false) (Ok "Deployment")
    (Ok []) (Ok []) (Ok ([], [])) (Ok [])
    (env_get_deployment env_ok) (env_get_statefulset env_ok) (env_get_cronjob env_ok)
    (fun _ _ => None) (fun _ _ => None) (fun _ _ _ => None).

(** unknown WorkloadType; the label path finds one Deployment and one
    StatefulSet, both with container [api]; the StatefulSet patch fails *)
Definition env_partial : RunEnv :=
  mkRunEnv false None None (true, None) None (Ok false) (Ok "")
    (Ok [deploy_w]) (Ok [sts_w]) (Ok ([], [])) (Ok [])
    (fun _ => Ok None) (fun _ => Ok None) (fun _ => Ok (None, None, false))
    (fun _ _ => None)
    (fun _ _ => Some "admission webhook denied the request")
    (fun _ _ _ => None).

(** ** Lemmas on Run *)

(** resources only grow, and grow when [replaced] is set *)
Definition grows (t : Task) (st : RState) : Prop :=
  let '(t1, r, _) := st in
  exists new, ReplaceResources t1 = (ReplaceResources t ++ new)%list /\ (r = true -> new <> []).

Lemma grows_init (t : Task) : grows t (t, false, None).
Proof. exists []. split; [now rewrite app_nil_r | discriminate]. Qed.

Lemma replace_in_grows (t : Task) kind path upd lab name ws st :
  grows t st -> grows t (replace_in kind path upd lab name ws st).
Proof.
  destruct st as [[t1 r] oe]. intros [new [Hn Hr]]. unfold replace_in.
  destruct (first_match name ws) as [[w c]|]; [|exists new; auto].
  destruct (upd (w_namespace w) (w_name w)); [exists new; auto|].
  exists (new ++ [mkResource kind (c_name c) (c_image c) (w_name w) ""])%list.
  split.
  - destruct lab; simpl; rewrite Hn, app_assoc; reflexivity.
  - intros _. destruct new; discriminate.
Qed.

Lemma and_then_grows (t : Task) st k :
  grows t st -> (forall st', grows t st' -> grows t (k st')) -> grows t (and_then st k).
Proof. destruct st as [[t1 r] [e|]]; simpl; auto. Qed.

Lemma resolve_unknown_grows env name t : grows t (resolve_unknown env name t).
Proof.
  unfold resolve_unknown. destruct (fst (fetchRelatedWorkloads env)).
  - apply and_then_grows; [apply replace_in_grows, grows_init|]. intros st1 H1.
    apply and_then_grows; [apply replace_in_grows; exact H1|]. intros st2 H2.
    apply and_then_grows; [apply replace_in_grows; exact H2|]. intros st3 H3.
    apply replace_in_grows; exact H3.
  - apply grows_init.
Qed.

Lemma resolve_known_grows env name wt t : grows t (resolve_known env name wt t).
Proof.
  unfold resolve_known.
  destruct (String.eqb wt setting.StatefulSet).
  { destruct (env_get_statefulset env (ServiceName t)) as [[s|]|e];
      try apply grows_init. apply replace_in_grows, grows_init. }
  destruct (String.eqb wt setting.Deployment).
  { destruct (env_get_deployment env (ServiceName t)) as [[d|]|e];
      try apply grows_init. apply replace_in_grows, grows_init. }
  destruct (String.eqb wt setting.CronJob); [|apply grows_init].
  destruct (env_get_cronjob env (ServiceName t)) as [[[c b] [|]]|e]; try apply grows_init.
  apply and_then_grows.
  - destruct c; [apply replace_in_grows|]; apply grows_init.
  - intros st1 H1. destruct b; [apply replace_in_grows|]; exact H1.
Qed.

(** with labels not recorded, replace_in keeps RelatedPodLabels *)
Definition labels_kept (t : Task) (st : RState) : Prop :=
  let '(t1, _, _) := st in RelatedPodLabels t1 = RelatedPodLabels t.

Lemma replace_in_labels_kept (t : Task) kind path upd name ws st :
  labels_kept t st -> labels_kept t (replace_in kind path upd false name ws st).
Proof.
  destruct st as [[t1 r] oe]. unfold labels_kept, replace_in. intros H.
  destruct (first_match name ws) as [[w c]|]; auto.
  destruct (upd (w_namespace w) (w_name w)); auto.
Qed.

Lemma resolve_known_labels_kept env name wt t : labels_kept t (resolve_known env name wt t).
Proof.
  unfold resolve_known.
  destruct (String.eqb wt setting.StatefulSet).
  { destruct (env_get_statefulset env (ServiceName t)) as [[s|]|e];
      [apply replace_in_labels_kept| |]; reflexivity. }
  destruct (String.eqb wt setting.Deployment).
  { destruct (env_get_deployment env (ServiceName t)) as [[d|]|e];
      [apply replace_in_labels_kept| |]; reflexivity. }
  destruct (String.eqb wt setting.CronJob); [|reflexivity].
  destruct (env_get_cronjob env (ServiceName t)) as [[[c b] [|]]|e]; [|reflexivity|reflexivity].
  assert (H1 : labels_kept t (match c with
                 | Some c => replace_in setting.CronJob "cronJob"
                     (fun ns n => env_update_cronjob env ns n false) false name [c] (t, false, None)
                 | None => (t, false, None) end)).
  { destruct c; [apply replace_in_labels_kept|]; reflexivity. }
  revert H1. generalize (match c with
                 | Some c => replace_in setting.CronJob "cronJob"
                     (fun ns n => env_update_cronjob env ns n false) false name [c] (t, false, None)
                 | None => (t, false, None) end).
  intros [[t1 r] [e|]] H1; [exact H1|].
  unfold and_then. destruct b; [apply replace_in_labels_kept|]; exact H1.
Qed.

Lemma first_match_none name ws :
  (forall w c, In w ws -> In c (w_containers w) -> c_name c <> name) ->
  first_match name ws = None.
Proof.
  induction ws as [|w ws IH]; intros H; simpl; auto.
  destruct (find (fun c => String.eqb (c_name c) name) (w_containers w)) eqn:E.
  - apply find_some in E as [Hin Heq]. apply String.eqb_eq in Heq.
    exfalso. exact (H w c (or_introl eq_refl) Hin Heq).
  - apply IH. intros w' c' Hw Hc. apply (H w'); auto. right; exact Hw.
Qed.

Lemma finalize_status err t :
  TaskStatus (finalize err t) = match err with Some _ => StatusFailed | None => TaskStatus t end.
Proof. destruct err; reflexivity. Qed.

Lemma finalize_resources err t : ReplaceResources (finalize err t) = ReplaceResources t.
Proof. destruct err; reflexivity. Qed.

Lemma finalize_labels err t : RelatedPodLabels (finalize err t) = RelatedPodLabels t.
Proof. destruct err; reflexivity. Qed.

Lemma run_prepare_return_some env t err : run_prepare env t = Return err -> err <> None.
Proof.
  unfold run_prepare.
  assert (A : forall b e, (let after_clients (clientset_nonnil : bool) (err : option string) : Flow :=
    if negb clientset_nonnil then Panic err else
    match env_server_version env with
    | Some e => Return (Some (with_message e "failed to get kubernetes server version"))
    | None =>
        match env_product env with
        | Err e => Return (Some (with_message e ("failed to get product "
                                  ++ Namespace t ++ "/" ++ ServiceName t)))
        | Ok true => Return (Some ("product " ++ ProductName t ++ "/" ++ EnvName t
                                  ++ " is sleeping"))
        | Ok false => Continue
        end
    end in after_clients b e) = Return err -> err <> None).
  { intros b e. simpl. destruct (negb b); [discriminate|].
    destruct (env_server_version env); [intros H; inversion H; discriminate|].
    destruct (env_product env) as [[|]|]; intros H; inversion H; discriminate. }
  destruct (DeployClusterID_set env); [|apply A].
  destruct (env_rest_config env); [intros H; inversion H; discriminate|].
  destruct (env_kube_client env); [intros H; inversion H; discriminate|].
  destruct (env_kube_clientset env) as [b [e|]]; apply A.
Qed.

Lemma run_body_grows env t t' err :
  run_body env t = (t', err, ExitReturn) ->
  exists new, ReplaceResources t' = (ReplaceResources t ++ new)%list /\ (err = None -> new <> []).
Proof.
  unfold run_body. destruct (run_prepare env t) as [| e0 | e0] eqn:Hp.
  - destruct (env_service env) as [wt | e].
    + set (name := TrimSuffix (ContainerName t) ("_" ++ ServiceName t)).
      assert (G : grows t (if String.eqb wt "" then resolve_unknown env name t
                           else resolve_known env name wt t)).
      { destruct (String.eqb wt ""); [apply resolve_unknown_grows | apply resolve_known_grows]. }
      destruct (if String.eqb wt "" then resolve_unknown env name t
                else resolve_known env name wt t) as [[t1 r] oe].
      destruct G as [new [Hn Hr]].
      destruct oe as [e|]; [| destruct r]; intros H; injection H as <- <-;
        exists new; split; auto; intros; discriminate.
    + intros H; injection H as <- <-. exists []. rewrite app_nil_r. split; auto; discriminate.
  - intros H; injection H as <- <-. exists []. rewrite app_nil_r. split; auto.
    intros ->. destruct (run_prepare_return_some env t None Hp eq_refl).
  - discriminate.
Qed.

Definition status_kept (t : Task) (st : RState) : Prop :=
  let '(t1, _, _) := st in TaskStatus t1 = TaskStatus t.

Lemma replace_in_status_kept (t : Task) kind path upd lab name ws st :
  status_kept t st -> status_kept t (replace_in kind path upd lab name ws st).
Proof.
  destruct st as [[t1 r] oe]. unfold status_kept, replace_in. intros H.
  destruct (first_match name ws) as [[w c]|]; auto.
  destruct (upd (w_namespace w) (w_name w)); auto. destruct lab; exact H.
Qed.

Lemma and_then_status_kept (t : Task) st k :
  status_kept t st -> (forall st', status_kept t st' -> status_kept t (k st')) ->
  status_kept t (and_then st k).
Proof. destruct st as [[t1 r] [e|]]; simpl; auto. Qed.

Lemma resolve_status_kept env name wt t :
  status_kept t (if String.eqb wt "" then resolve_unknown env name t
                 else resolve_known env name wt t).
Proof.
  destruct (String.eqb wt "").
  - unfold resolve_unknown. destruct (fst (fetchRelatedWorkloads env)); [|reflexivity].
    repeat (apply and_then_status_kept || apply replace_in_status_kept || intros ? ?);
      try assumption; reflexivity.
  - unfold resolve_known.
    destruct (String.eqb wt setting.StatefulSet).
    { destruct (env_get_statefulset env (ServiceName t)) as [[s|]|e];
        [apply replace_in_status_kept| |]; reflexivity. }
    destruct (String.eqb wt setting.Deployment).
    { destruct (env_get_deployment env (ServiceName t)) as [[d|]|e];
        [apply replace_in_status_kept| |]; reflexivity. }
    destruct (String.eqb wt setting.CronJob); [|reflexivity].
    destruct (env_get_cronjob env (ServiceName t)) as [[[c b] [|]]|e]; [|reflexivity|reflexivity].
    apply and_then_status_kept.
    + destruct c; [apply replace_in_status_kept|]; reflexivity.
    + intros st1 H1. destruct b; [apply replace_in_status_kept|]; exact H1.
Qed.

Lemma run_body_status env t : TaskStatus (fst (fst (run_body env t))) = TaskStatus t.
Proof.
  unfold run_body. destruct (run_prepare env t); try reflexivity.
  destruct (env_service env) as [wt|e]; [|reflexivity].
  pose proof (resolve_status_kept env (TrimSuffix (ContainerName t) ("_" ++ ServiceName t)) wt t) as K.
  cbv zeta.
  destruct (if String.eqb wt "" then _ else _) as [[t1 r] oe].
  destruct oe; [|destruct r]; exact K.
Qed.

(** ** Claims on Run *)

(** C1 (divergence).  On a remote cluster whose [GetKubeClientSet] returns
    a clientset together with an error, the branch records the error in
    [err] but does not return; [productInfo, err := GetProductInfo(...)]
    then overwrites it with nil, Run goes on to patch the image, and the
    deferred sink sees no error: the task is left Running with no Error. *)
Theorem run_clientset_error_cleared :
  snd (env_kube_clientset env_clientset_err) = Some "dial tcp 10.0.0.1:443: i/o timeout" /\
  run_body env_clientset_err task0 =
    (set_resources task0 [mkResource "Deployment" "api" "repo/app:1.0" "myservice" ""],
     None, ExitReturn) /\
  TaskStatus (fst (Run env_clientset_err task0)) = StatusRunning /\
  Error (fst (Run env_clientset_err task0)) = "".
Proof. repeat split; reflexivity. Qed.

(** C4.  When Run returns, either it appended at least one Resource to
    ReplaceResources, or it failed (TaskStatus Failed) and appended none;
    and when the label path resolved the workloads of an unknown
    WorkloadType without error but none of them has a container with the
    stripped name, Run fails with "container <name> is not found in
    resources " and appends nothing. *)
Theorem run_resources_all_or_failed (env : RunEnv) (t : Task) :
  (snd (Run env t) = ExitReturn ->
   exists new, ReplaceResources (fst (Run env t)) = (ReplaceResources t ++ new)%list /\
     (new <> [] \/ (new = [] /\ TaskStatus (fst (Run env t)) = StatusFailed))) /\
  (forall wl, run_prepare env t = Continue -> env_service env = Ok "" ->
     fst (fetchRelatedWorkloads env) = Ok wl ->
     (forall w c, (In w (deployments wl) \/ In w (statefulSets wl)
                   \/ In w (cronJobs wl) \/ In w (cronJobBetas wl)) ->
        In c (w_containers w) ->
        c_name c <> TrimSuffix (ContainerName t) ("_" ++ ServiceName t)) ->
     Run env t =
       (finalize (Some ("container " ++ TrimSuffix (ContainerName t) ("_" ++ ServiceName t)
                        ++ " is not found in resources ")) t, ExitReturn)).
Proof.
  split.
  - unfold Run. destruct (run_body env t) as [[t' err] ex] eqn:Hb. simpl. intros ->.
    destruct (run_body_grows env t t' err Hb) as [new [Hn Hr]].
    exists new. rewrite finalize_resources, finalize_status. split; [exact Hn|].
    destruct new as [|r rs]; [|left; discriminate].
    right. split; [reflexivity|]. destruct err; [reflexivity|].
    exfalso. exact (Hr eq_refl eq_refl).
  - intros wl Hp Hs Hf Hno. unfold Run, run_body. rewrite Hp, Hs.
    set (name := TrimSuffix (ContainerName t) ("_" ++ ServiceName t)).
    cbv zeta. change (String.eqb "" "") with true. cbv iota.
    unfold resolve_unknown. rewrite Hf.
    assert (N : forall ws, (forall w, In w ws -> In w (deployments wl) \/ In w (statefulSets wl)
                   \/ In w (cronJobs wl) \/ In w (cronJobBetas wl)) -> first_match name ws = None).
    { intros ws Hw. apply first_match_none. intros w c Hin Hc. exact (Hno w c (Hw w Hin) Hc). }
    unfold replace_in.
    rewrite (N (deployments wl)) by tauto. unfold and_then.
    rewrite (N (statefulSets wl)) by tauto.
    rewrite (N (cronJobs wl)) by tauto.
    rewrite (N (cronJobBetas wl)) by tauto. reflexivity.
Qed.

(** C5.  fetchRelatedWorkloads invokes the manifest fallback exactly when
    the three label-selector list queries all succeed with empty results
    (Deployments, StatefulSets, CronJobs and CronJobBetas); it then returns
    the fallback's result.  When a list query fails the fallback is not
    invoked and the error is returned. *)
Theorem fetchRelatedWorkloads_fallback_iff (env : RunEnv) :
  (snd (fetchRelatedWorkloads env) = true <->
   env_list_deployments env = Ok [] /\ env_list_statefulsets env = Ok [] /\
   env_list_cronjobs env = Ok ([], [])) /\
  (snd (fetchRelatedWorkloads env) = true ->
   fst (fetchRelatedWorkloads env) = fetchWorkloadsForImportedService env) /\
  ((exists e, env_list_deployments env = Err e) \/
   (exists e, env_list_statefulsets env = Err e) \/
   (exists e, env_list_cronjobs env = Err e) ->
   snd (fetchRelatedWorkloads env) = false /\
   exists e, fst (fetchRelatedWorkloads env) = Err e).
Proof.
  unfold fetchRelatedWorkloads.
  destruct (env_list_deployments env) as [ds|e1];
    [|split; [split; [discriminate| intros [H _]; discriminate]|
       split; [discriminate| intros _; split; [reflexivity| exists e1; reflexivity]]]].
  destruct (env_list_statefulsets env) as [ss|e2];
    [|split; [split; [discriminate| intros [_ [H _]]; discriminate]|
       split; [discriminate| intros _; split; [reflexivity| exists e2; reflexivity]]]].
  destruct (env_list_cronjobs env) as [[cs bs]|e3];
    [|split; [split; [discriminate| intros [_ [_ H]]; discriminate]|
       split; [discriminate| intros _; split; [reflexivity| exists e3; reflexivity]]]].
  destruct ds, ss, cs, bs; simpl;
    (split; [split; [try discriminate; auto
                    | intros [H1 [H2 H3]]; try discriminate; reflexivity]
            | split; [intros H; try discriminate; reflexivity
                     | intros [[e H]|[[e H]|[e H]]]; discriminate]]).
Qed.

(** C10.  On the known-WorkloadType path Run appends nothing to
    RelatedPodLabels (it leaves it as it was); so for a task whose
    RelatedPodLabels was empty when Run started, Wait's per-tick fast-fail
    scan never fails and its deadline scan collects no message: the
    deadline branch only sets Timeout. *)
Theorem known_path_no_related_labels (env : RunEnv) (t : Task) (wt : string) :
  env_service env = Ok wt -> wt <> "" ->
  RelatedPodLabels (fst (Run env t)) = RelatedPodLabels t /\
  (RelatedPodLabels t = [] ->
   (forall c uid, workLoadDeployStat c (RelatedPodLabels (fst (Run env t))) uid = None) /\
   (forall c rs ready err e,
      tick_loop c (RelatedPodLabels (fst (Run env t))) rs ready err <> TickFailed e) /\
   (forall c, wait_timeout c (fst (Run env t)) = set_status (fst (Run env t)) StatusTimeout)).
Proof.
  intros Hs Hwt.
  assert (L : RelatedPodLabels (fst (Run env t)) = RelatedPodLabels t).
  { unfold Run. destruct (run_body env t) as [[t' err] ex] eqn:Hb. simpl.
    rewrite finalize_labels. revert Hb. unfold run_body.
    destruct (run_prepare env t);
      [| intros H; injection H as <- _ _; reflexivity
       | intros H; injection H as <- _ _; reflexivity].
    rewrite Hs. cbv zeta.
    assert (E : String.eqb wt "" = false) by (apply String.eqb_neq; exact Hwt).
    rewrite E.
    pose proof (resolve_known_labels_kept env
                  (TrimSuffix (ContainerName t) ("_" ++ ServiceName t)) wt t) as K.
    destruct (resolve_known env (TrimSuffix (ContainerName t) ("_" ++ ServiceName t)) wt t)
      as [[t1 r] oe].
    destruct oe; [|destruct r]; intros H; injection H as <- _ _; exact K. }
  split; [exact L|]. intros H0. rewrite L, H0.
  split; [reflexivity|]. split.
  - intros c rs. induction rs as [|r rs IH]; intros ready err e; simpl; [discriminate|].
    destruct (String.eqb (Kind r) setting.Deployment).
    + destruct (match cl_get_deployment c (Name r) with
                | Err e0 => (false, Some e0)
                | Ok None => (false, err)
                | Ok (Some d) => (deployment_ready d, err) end) as [rd er].
      destruct (negb rd); [discriminate| apply IH].
    + destruct (String.eqb (Kind r) setting.StatefulSet); [|apply IH].
      destruct (match cl_get_statefulset c (Name r) with
                | Err e0 => (false, Some e0)
                | Ok s => match err, s with
                          | Some _, _ => (false, err)
                          | None, None => (false, err)
                          | None, Some s0 => (statefulset_ready s0, err) end end) as [rd er].
      destruct (negb rd); [discriminate| apply IH].
  - intros c. unfold wait_timeout. simpl. rewrite L, H0. reflexivity.
Qed.

(** ** Concrete Wait inputs *)

(** the Deployment of [env_ok] after the patch: generation 2 not yet
    observed *)
Definition deploy_status_rolling : WorkloadStatus :=
  mkWorkloadStatus "myservice" "uid-deploy" 2 1 3 1 3.

Definition rs_new : ReplicaSet := mkReplicaSet "uid-rs-2" (Some "uid-deploy") 200.
Definition rs_old : ReplicaSet := mkReplicaSet "uid-rs-1" (Some "uid-deploy") 100.

(** a pod of the new ReplicaSet stuck in CrashLoopBackOff; its phase is
    Running, as for every crash-looping pod *)
Definition pod_crashing : Pod :=
  mkPod "myservice-7d9f-abcde" ["uid-rs-2"] []
    [mkContainerStatus (Some ("CrashLoopBackOff", "back-off 5m0s restarting failed container"))]
    "Running"
    [mkContainerView "waiting" "CrashLoopBackOff" "back-off 5m0s restarting failed container"].

(** a pending pod whose container waits on a missing secret *)
Definition pod_config_error : Pod :=
  mkPod "myservice-7d9f-fghij" ["uid-rs-2"] []
    [mkContainerStatus (Some ("CreateContainerConfigError", "secret db-pass not found"))]
    "Pending"
    [mkContainerView "waiting" "CreateContainerConfigError" "secret db-pass not found"].

Definition cluster_rolling : Cluster :=
  mkCluster
    (fun n => if String.eqb n "myservice" then Ok (Some deploy_status_rolling) else Ok None)
    (fun _ => Ok None)
    (fun _ => Ok [rs_old; rs_new])
    (fun l => if String.eqb (fst (hd ("", "") l)) "app" then Ok [pod_crashing; pod_config_error]
              else Ok []).

(** the cluster API is unreachable *)
Definition cluster_down : Cluster :=
  mkCluster (fun _ => Err "connection refused") (fun _ => Err "connection refused")
    (fun _ => Err "connection refused") (fun _ => Err "connection refused").

(** a Run whose Deployment has no container [api]: Run fails *)
Definition env_nomatch : RunEnv :=
  mkRunEnv false None None (true, None) None (Ok false) (Ok "")
    (Ok [mkWorkload "shop-dev" "myservice" [mkContainerSpec "web" "repo/web:1.0"]
           [("app", "myservice")]])
    (Ok []) (Ok ([], [])) (Ok [])
    (fun _ => Ok None) (fun _ => Ok None) (fun _ => Ok (None, None, false))
    (fun _ _ => None) (fun _ _ => None) (fun _ _ _ => None).

Definition task_after_run : Task := fst (Run env_ok task0).

Example task_after_run_resources :
  ReplaceResources task_after_run = [mkResource "Deployment" "api" "repo/app:1.0" "myservice" ""].
Proof. reflexivity. Qed.

Example wait_fingerprint_example :
  getResourcesPodOwnerUID insertion_sort cluster_rolling (ReplaceResources task_after_run)
  = SetupOk [mkResource "Deployment" "api" "repo/app:1.0" "myservice" "uid-rs-2"].
Proof. reflexivity. Qed.

(** ** Lemmas on Wait *)

(** readiness of one tracked resource as the default branch evaluates it *)
Definition resource_ready (c : Cluster) (kind name : string) : bool :=
  if String.eqb kind setting.Deployment then
    match cl_get_deployment c name with
    | Ok (Some d) => deployment_ready d
    | _ => false
    end
  else if String.eqb kind setting.StatefulSet then
    match cl_get_statefulset c name with
    | Ok (Some s) => statefulset_ready s
    | _ => false
    end
  else true.

Lemma tick_loop_ready_all c labelMaps rs ready err :
  tick_loop c labelMaps rs ready err = TickReady true ->
  Forall (fun r => resource_ready c (Kind r) (Name r) = true) rs.
Proof.
  revert ready err. induction rs as [|r rs IH]; intros ready err; simpl; [constructor|].
  destruct (workLoadDeployStat c labelMaps (PodOwnerUID r)); [discriminate|].
  unfold resource_ready at 1.
  destruct (String.eqb (Kind r) setting.Deployment) eqn:Ek.
  - destruct (cl_get_deployment c (Name r)) as [[d|]|e] eqn:Eg; simpl;
      [destruct (deployment_ready d) eqn:Rd; simpl; [|discriminate]|discriminate|discriminate].
    intros H. constructor; [unfold resource_ready; rewrite Ek, Eg; exact Rd|]. exact (IH _ _ H).
  - destruct (String.eqb (Kind r) setting.StatefulSet) eqn:Es.
    + destruct (cl_get_statefulset c (Name r)) as [s|e] eqn:Eg; [|simpl; discriminate].
      destruct err, s as [s|]; simpl; try discriminate.
      destruct (statefulset_ready s) eqn:Rs; simpl; [|discriminate].
      intros H. constructor; [unfold resource_ready; rewrite Ek, Es, Eg; exact Rs|].
      exact (IH _ _ H).
    + intros H. constructor; [unfold resource_ready; rewrite Ek, Es; reflexivity|].
      exact (IH _ _ H).
Qed.

Lemma wait_timeout_status c t : TaskStatus (wait_timeout c t) = StatusTimeout.
Proof.
  unfold wait_timeout. destruct (timeout_scan c _ []) as [[|m ms]|e]; reflexivity.
Qed.

Lemma wait_timeout_resources c t : ReplaceResources (wait_timeout c t) = ReplaceResources t.
Proof.
  unfold wait_timeout. destruct (timeout_scan c _ []) as [[|m ms]|e]; reflexivity.
Qed.

(** the StatefulSet of the spec's scenario: 3 desired, 3 updated,
    2 available *)
Definition sts_status_332 : WorkloadStatus := mkWorkloadStatus "myservice-db" "uid-sts" 1 1 3 3 2.

Definition cluster_sts_332 : Cluster :=
  mkCluster (fun _ => Ok None)
    (fun n => if String.eqb n "myservice-db" then Ok (Some sts_status_332) else Ok None)
    (fun _ => Ok []) (fun _ => Ok []).

(** ** Claims on Wait *)

(** C8.  The poll loop of Wait sets Passed only on a default tick at which
    every tracked Deployment and StatefulSet was fetched and found ready
    (observed generation caught up with the desired generation, updated and
    available replicas equal to the desired count): whenever the loop ends
    with Passed from a task that was not Passed, the events split as
    [pre ++ EvDefault c :: post], the loop is still polling with the task
    unchanged after [pre], and the tick [c] is the one that sets Passed and
    returns, every tracked resource being ready on [c].  In particular a
    StatefulSet with 3 desired, 3 updated and 2 available replicas is not
    ready and a tick tracking it does not set Passed. *)
Theorem wait_passed_only_when_ready :
  (forall events t t' w,
     wait_loop events t = (t', w) ->
     TaskStatus t <> StatusPassed -> TaskStatus t' = StatusPassed ->
     exists pre c post, events = (pre ++ EvDefault c :: post)%list /\
       wait_loop pre t = (t, WaitPolling) /\
       wait_loop (EvDefault c :: post) t = (t', w) /\
       t' = set_status t StatusPassed /\ w = WaitReturned /\
       tick_loop c (RelatedPodLabels t) (ReplaceResources t) true None = TickReady true /\
       Forall (fun r => resource_ready c (Kind r) (Name r) = true) (ReplaceResources t)) /\
  statefulset_ready sts_status_332 = false /\
  (forall labelMaps uid,
     tick_loop cluster_sts_332 labelMaps
       [mkResource setting.StatefulSet "api" "repo/app:1.0" "myservice-db" uid] true None
     <> TickReady true).
Proof.
  split; [|split; [reflexivity|]].
  - intros events. induction events as [|ev events IH]; intros t t' w Hw Hs Hp.
    + simpl in Hw. injection Hw as <- _. contradiction.
    + destruct ev as [|c|c]; simpl in Hw.
      * injection Hw as <- _. discriminate.
      * injection Hw as <- _. rewrite wait_timeout_status in Hp. discriminate.
      * destruct (tick_loop c (RelatedPodLabels t) (ReplaceResources t) true None)
          as [e|[|]] eqn:Et.
        -- injection Hw as <- _. discriminate.
        -- injection Hw as <- <-. exists [], c, events.
           split; [reflexivity|]. split; [reflexivity|].
           split; [simpl; rewrite Et; reflexivity|]. split; [reflexivity|].
           split; [reflexivity|]. split; [exact Et|].
           exact (tick_loop_ready_all _ _ _ _ _ Et).
        -- destruct (IsTaskDone t) eqn:Ed.
           ++ injection Hw as <- _. contradiction.
           ++ destruct (IH t t' w Hw Hs Hp) as [pre [c' [post [He [Hpre Hrest]]]]].
              exists (EvDefault c :: pre), c', post. rewrite He. split; [reflexivity|].
              split; [|exact Hrest]. simpl. rewrite Et. simpl. rewrite Ed. exact Hpre.
  - intros labelMaps uid.
    assert (N : workLoadDeployStat cluster_sts_332 labelMaps uid = None).
    { induction labelMaps as [|l ls IH]; simpl; auto. }
    simpl. rewrite N. simpl. discriminate.
Qed.

(** C9 (divergence).  When the fingerprints cannot be computed (here the
    Deployment cannot be fetched), Wait writes Error but leaves TaskStatus
    Running and returns. *)
Theorem wait_owner_error_leaves_running :
  Wait insertion_sort cluster_down [] task_after_run =
    (set_error task_after_run "get resource owner info error: connection refused",
     WaitReturned) /\
  TaskStatus (fst (Wait insertion_sort cluster_down [] task_after_run)) = StatusRunning /\
  IsTaskDone (fst (Wait insertion_sort cluster_down [] task_after_run)) = false.
Proof. repeat split; reflexivity. Qed.

(** C2 (counterexample).  Run fails (no container [api]) and leaves the
    task Failed with no tracked resource; Wait's first tick then finds
    every tracked resource ready and overwrites Failed with Passed. *)
Lemma run_failed_then_wait_passed :
  TaskStatus (fst (Run env_nomatch task0)) = StatusFailed /\
  TaskStatus (fst (Wait insertion_sort cluster_down [EvDefault cluster_down]
                        (fst (Run env_nomatch task0)))) = StatusPassed.
Proof. split; reflexivity. Qed.

Lemma wait_loop_polling events t t' :
  wait_loop events t = (t', WaitPolling) -> TaskStatus t' = TaskStatus t.
Proof.
  revert t. induction events as [|ev events IH]; intros t Hw; simpl in Hw.
  - injection Hw as <-. reflexivity.
  - destruct ev as [|c|c]; [discriminate|discriminate|].
    destruct (tick_loop c (RelatedPodLabels t) (ReplaceResources t) true None) as [e|[|]];
      [discriminate| |].
    + discriminate.
    + destruct (IsTaskDone t); [discriminate|]. exact (IH t Hw).
Qed.

(** C2 (amended).  Run changes TaskStatus only through its deferred sink,
    which sets Failed and fires only on a non-nil error; Complete changes
    nothing; while Wait keeps polling TaskStatus stays what it was on
    entry, so Wait assigns a status only on the step at which it returns
    and never overwrites a status it set itself. *)
Theorem status_assignments (sort_slice : (ReplicaSet -> ReplicaSet -> bool) -> list ReplicaSet -> list ReplicaSet) :
  (forall env t, TaskStatus (fst (Run env t)) =
     match snd (fst (run_body env t)) with Some _ => StatusFailed | None => TaskStatus t end) /\
  (forall t, Complete t = t) /\
  (forall setup events t,
     snd (Wait sort_slice setup events t) = WaitPolling ->
     TaskStatus (fst (Wait sort_slice setup events t)) = TaskStatus t).
Proof.
  split; [|split; [reflexivity|]].
  - intros env t. unfold Run.
    pose proof (run_body_status env t) as S.
    destruct (run_body env t) as [[t1 err] ex]. simpl in *.
    rewrite finalize_status, S. reflexivity.
  - intros setup events t. unfold Wait. destruct (SkipWaiting t); [discriminate|].
    destruct (getResourcesPodOwnerUID sort_slice setup (ReplaceResources t)) as [rs| |];
      try discriminate.
    destruct (wait_loop events (set_resources t rs)) as [t' w] eqn:E. simpl. intros ->.
    exact (wait_loop_polling _ _ _ E).
Qed.

(** what getResourcesPodOwnerUID makes of one resource *)
Definition fingerprinted (c : Cluster) (r r' : Resource) : Prop :=
  Kind r' = Kind r /\ Container r' = Container r /\ Origin r' = Origin r /\
  Name r' = Name r /\
  (Kind r = setting.StatefulSet ->
     exists s, cl_get_statefulset c (Name r) = Ok (Some s) /\ PodOwnerUID r' = ws_uid s) /\
  (Kind r = setting.Deployment ->
     exists d rsets top,
       cl_get_deployment c (Name r) = Ok (Some d) /\ cl_list_replicasets c d = Ok rsets /\
       In top rsets /\ IsControlledBy top d = true /\ PodOwnerUID r' = rs_uid top /\
       (forall x, In x rsets -> IsControlledBy x d = true -> (rs_creation x <= rs_creation top)%Z)) /\
  (Kind r <> setting.StatefulSet -> Kind r <> setting.Deployment -> r' = r).

Lemma owner_uid_loop_spec sort_slice
  (Hperm : forall l, Permutation l (sort_slice newer l))
  (Hsorted : forall l, StronglySorted (fun a b => newer b a = false) (sort_slice newer l))
  c rs : forall acc out,
  owner_uid_loop sort_slice c rs acc = SetupOk out ->
  exists out2, out = (acc ++ out2)%list /\ Forall2 (fingerprinted c) rs out2.
Proof.
  induction rs as [|r rs IH]; intros acc out H; simpl in H.
  - injection H as <-. exists []. rewrite app_nil_r. split; auto.
  - destruct (String.eqb (Kind r) setting.StatefulSet) eqn:Es.
    + apply String.eqb_eq in Es.
      destruct (cl_get_statefulset c (Name r)) as [[s|]|e] eqn:Eg; try discriminate.
      destruct (IH _ _ H) as [out2 [-> F]].
      exists (set_uid r (ws_uid s) :: out2). rewrite <- app_assoc. split; [reflexivity|].
      constructor; [|exact F].
      unfold fingerprinted; simpl. repeat split; auto.
      * intros _. exists s. auto.
      * intros Hd. rewrite Es in Hd. discriminate.
      * intros Hn. contradiction.
    + destruct (String.eqb (Kind r) setting.Deployment) eqn:Ed.
      * apply String.eqb_eq in Ed.
        destruct (cl_get_deployment c (Name r)) as [[d|]|e] eqn:Eg; try discriminate.
        destruct (cl_list_replicasets c d) as [rsets|e] eqn:El; try discriminate.
        remember (filter (fun x => IsControlledBy x d) rsets) as owned eqn:Eo.
        destruct owned as [|o os]; [discriminate|].
        destruct (sort_slice newer (o :: os)) as [|top rest] eqn:Ess; [discriminate|].
        destruct (IH _ _ H) as [out2 [-> F]].
        exists (set_uid r (rs_uid top) :: out2). rewrite <- app_assoc. split; [reflexivity|].
        constructor; [|exact F].
        assert (Tin : In top (o :: os)).
        { apply (Permutation_in _ (Permutation_sym (Hperm (o :: os)))). rewrite Ess. left; auto. }
        rewrite Eo in Tin. apply filter_In in Tin as [Tin Tc].
        unfold fingerprinted; simpl. repeat split; auto.
        -- intros Hs. rewrite Ed in Hs. discriminate.
        -- intros _. exists d, rsets, top. repeat split; auto.
           intros x Hx Hc.
           assert (Xin : In x (top :: rest)).
           { rewrite <- Ess. apply (Permutation_in _ (Hperm (o :: os))). rewrite Eo.
             apply filter_In. auto. }
           destruct Xin as [<-|Xin]; [lia|].
           pose proof (Hsorted (o :: os)) as SS. rewrite Ess in SS.
           apply StronglySorted_inv in SS as [_ SF].
           rewrite Forall_forall in SF. specialize (SF x Xin).
           unfold newer in SF. apply Z.ltb_ge in SF. lia.
        -- intros _ Hn. contradiction.
      * destruct (IH _ _ H) as [out2 [-> F]].
        exists (r :: out2). rewrite <- app_assoc. split; [reflexivity|].
        constructor; [|exact F].
        apply String.eqb_neq in Es. apply String.eqb_neq in Ed.
        unfold fingerprinted. repeat split; auto; intros; contradiction.
Qed.

(** C6.  When Wait's setup succeeds, the list it tracks is the recorded
    list, in order and element for element, with only PodOwnerUID changed:
    a StatefulSet gets its own UID; a Deployment gets the UID of a
    ReplicaSet it controls, among those listed with its selector, whose
    creation timestamp is the latest of them (for any sort meeting
    sort.Slice's contract); other kinds (CronJob) are kept unchanged. *)
Theorem getResourcesPodOwnerUID_fingerprints sort_slice
  (Hperm : forall l, Permutation l (sort_slice newer l))
  (Hsorted : forall l, StronglySorted (fun a b => newer b a = false) (sort_slice newer l))
  (c : Cluster) (rs rs' : list Resource) :
  getResourcesPodOwnerUID sort_slice c rs = SetupOk rs' ->
  Forall2 (fingerprinted c) rs rs'.
Proof.
  unfold getResourcesPodOwnerUID. intros H.
  destruct (owner_uid_loop_spec sort_slice Hperm Hsorted c rs [] rs' H) as [out2 [-> F]].
  exact F.
Qed.

Lemma insert_by_perm less x l : Permutation (x :: l) (insert_by less x l).
Proof.
  induction l as [|y l IH]; simpl; [auto|].
  destruct (less y x); [|auto].
  eapply perm_trans; [apply perm_swap|]. constructor. exact IH.
Qed.

Lemma insertion_sort_perm less l : Permutation l (insertion_sort less l).
Proof.
  induction l as [|x l IH]; simpl; [auto|].
  eapply perm_trans; [|apply insert_by_perm]. constructor. exact IH.
Qed.

Lemma insert_by_sorted x l :
  StronglySorted (fun a b => newer b a = false) l ->
  StronglySorted (fun a b => newer b a = false) (insert_by newer x l).
Proof.
  induction l as [|y l IH]; intros S; simpl; [repeat constructor|].
  apply StronglySorted_inv in S as [S F].
  destruct (newer y x) eqn:E.
  - constructor; [apply IH; exact S|].
    apply Forall_forall. intros z Hz.
    apply (Permutation_in _ (Permutation_sym (insert_by_perm newer x l))) in Hz.
    destruct Hz as [<-|Hz].
    + unfold newer in *. apply Z.ltb_lt in E. apply Z.ltb_ge. lia.
    + rewrite Forall_forall in F. exact (F z Hz).
  - constructor; [constructor; auto|].
    constructor; [exact E|].
    apply Forall_forall. intros z Hz. rewrite Forall_forall in F. specialize (F z Hz).
    unfold newer in *. apply Z.ltb_ge in E. apply Z.ltb_ge in F. apply Z.ltb_ge. lia.
Qed.

Lemma insertion_sort_sorted l :
  StronglySorted (fun a b => newer b a = false) (insertion_sort newer l).
Proof.
  induction l as [|x l IH]; simpl; [constructor|]. apply insert_by_sorted. exact IH.
Qed.

(** the deadline branch, container by container *)
Definition pod_messages (p : Pod) : list string :=
  if pod_not_settled p
  then map container_message
         (filter (fun cv => negb (String.eqb (cv_message cv) "")) (pod_view_containers p))
  else [].

Lemma collect_containers_app cs msg :
  collect_containers cs msg =
  (msg ++ map container_message (filter (fun cv => negb (String.eqb (cv_message cv) "")) cs))%list.
Proof.
  revert msg. induction cs as [|cv cs IH]; intros msg; simpl; [now rewrite app_nil_r|].
  rewrite IH. destruct (negb (String.eqb (cv_message cv) "")); simpl;
    [now rewrite <- app_assoc | reflexivity].
Qed.

Lemma collect_pods_app pods msg :
  collect_pods pods msg = (msg ++ flat_map pod_messages pods)%list.
Proof.
  revert msg. induction pods as [|p ps IH]; intros msg; simpl; [now rewrite app_nil_r|].
  rewrite IH. unfold pod_messages. destruct (pod_not_settled p).
  - rewrite collect_containers_app. now rewrite app_assoc.
  - reflexivity.
Qed.

Lemma timeout_scan_ok c labelMaps podss msg :
  Forall2 (fun l ps => cl_list_pods c l = Ok ps) labelMaps podss ->
  timeout_scan c labelMaps msg = Ok (msg ++ flat_map (flat_map pod_messages) podss)%list.
Proof.
  intros F. revert msg. induction F as [|l ps ls pss Hl F IH]; intros msg; simpl.
  - now rewrite app_nil_r.
  - rewrite Hl, IH, collect_pods_app. now rewrite app_assoc.
Qed.

Lemma timeout_scan_err c pre l post podss e msg :
  Forall2 (fun l ps => cl_list_pods c l = Ok ps) pre podss ->
  cl_list_pods c l = Err e ->
  timeout_scan c (pre ++ l :: post) msg = Err e.
Proof.
  intros F. revert msg. induction F as [|l0 ps ls pss Hl F IH]; intros msg He; simpl.
  - now rewrite He.
  - rewrite Hl. apply IH. exact He.
Qed.

(** the task of [task_after_run] as the unknown-WorkloadType path leaves it,
    with the pod-template labels of the Deployment recorded *)
Definition task_with_labels : Task :=
  set_labels task_after_run [[("app", "myservice")]].

(** C3 (counterexample).  At the deadline the related pods are the
    crash-looping pod (phase Running) and the pending pod waiting on a
    missing secret.  Error receives the pending pod's
    CreateContainerConfigError message, a reason outside the four, and
    nothing of the CrashLoopBackOff container, whose pod is Running. *)
Lemma wait_timeout_collects_other_reasons :
  cl_list_pods cluster_rolling [("app", "myservice")] = Ok [pod_crashing; pod_config_error] /\
  pod_statuses pod_crashing =
    [mkContainerStatus (Some ("CrashLoopBackOff", "back-off 5m0s restarting failed container"))] /\
  fatal_reason "CrashLoopBackOff" = true /\
  fatal_reason "CreateContainerConfigError" = false /\
  TaskStatus (wait_timeout cluster_rolling task_with_labels) = StatusTimeout /\
  Error (wait_timeout cluster_rolling task_with_labels) =
    "Status: waiting, Reason: CreateContainerConfigError, Message: secret db-pass not found".
Proof. repeat split; reflexivity. Qed.

(** C3 (amended).  The deadline branch sets Timeout.  It lists the pods of
    each recorded pod-template label set in order.  If a listing fails,
    Error is that error's text.  Otherwise every container reported by the
    pod wrapper for a pod whose status is neither Running nor Succeeded and
    whose message is non-empty contributes
    "Status: s, Reason: r, Message: m", whatever its reason; when at least
    one was collected Error is their newline join (label set, then pod,
    then container order), else Error is left as it was. *)
Theorem wait_timeout_diagnostics (c : Cluster) (t : Task) :
  TaskStatus (wait_timeout c t) = StatusTimeout /\
  ReplaceResources (wait_timeout c t) = ReplaceResources t /\
  (forall podss,
     Forall2 (fun l ps => cl_list_pods c l = Ok ps) (RelatedPodLabels t) podss ->
     Error (wait_timeout c t) =
       match flat_map (flat_map pod_messages) podss with
       | [] => Error t
       | msg => join newline msg
       end) /\
  (forall pre l post podss e,
     RelatedPodLabels t = (pre ++ l :: post)%list ->
     Forall2 (fun l ps => cl_list_pods c l = Ok ps) pre podss ->
     cl_list_pods c l = Err e ->
     Error (wait_timeout c t) = e).
Proof.
  split; [apply wait_timeout_status|]. split; [apply wait_timeout_resources|]. split.
  - intros podss F. unfold wait_timeout. simpl.
    rewrite (timeout_scan_ok c _ podss [] F). simpl.
    destruct (flat_map (flat_map pod_messages) podss); reflexivity.
  - intros pre l post podss e Hl F He. unfold wait_timeout. simpl.
    rewrite Hl, (timeout_scan_err c pre l post podss e [] F He). reflexivity.
Qed.

(** a container waiting with one of the four reasons *)
Definition fatal_status (cs : ContainerStatus) : Prop :=
  exists reason msg, cs_waiting cs = Some (reason, msg) /\ fatal_reason reason = true.

Lemma scan_statuses_some n css e :
  scan_statuses n css = Some e ->
  exists cs reason msg, In cs css /\ cs_waiting cs = Some (reason, msg) /\
    fatal_reason reason = true /\ e = "pod: " ++ n ++ ", " ++ reason ++ ": " ++ msg.
Proof.
  induction css as [|cs css IH]; simpl; [discriminate|].
  destruct (cs_waiting cs) as [[reason msg]|] eqn:Ew.
  - destruct (fatal_reason reason) eqn:Ef.
    + intros H. injection H as <-. exists cs, reason, msg. auto.
    + intros H. destruct (IH H) as [cs' [r' [m' [? ?]]]]. exists cs', r', m'. auto.
  - intros H. destruct (IH H) as [cs' [r' [m' [? ?]]]]. exists cs', r', m'. auto.
Qed.

Lemma scan_statuses_fatal n css cs :
  In cs css -> fatal_status cs -> scan_statuses n css <> None.
Proof.
  intros Hin [reason [msg [Hw Hf]]]. induction css as [|cs0 css IH]; [destruct Hin|].
  simpl. destruct Hin as [<-|Hin].
  - rewrite Hw, Hf. discriminate.
  - destruct (cs_waiting cs0) as [[r m]|]; [destruct (fatal_reason r)|];
      [discriminate| |]; exact (IH Hin).
Qed.

Lemma scan_pods_some uid pods e :
  scan_pods uid pods = Some e ->
  exists p, In p pods /\ IsOwnerMatched p uid = true /\
    scan_statuses (pod_name p) (pod_init_statuses p ++ pod_statuses p) = Some e.
Proof.
  induction pods as [|p ps IH]; simpl; [discriminate|].
  destruct (IsOwnerMatched p uid) eqn:Eo; simpl.
  - destruct (scan_statuses (pod_name p) (pod_init_statuses p ++ pod_statuses p)) eqn:Es.
    + intros H. injection H as <-. exists p. auto.
    + intros H. destruct (IH H) as [p' [? ?]]. exists p'. auto.
  - intros H. destruct (IH H) as [p' [? ?]]. exists p'. auto.
Qed.

Lemma scan_pods_fatal uid pods p :
  In p pods -> IsOwnerMatched p uid = true ->
  scan_statuses (pod_name p) (pod_init_statuses p ++ pod_statuses p) <> None ->
  scan_pods uid pods <> None.
Proof.
  intros Hin Ho Hs. induction pods as [|p0 ps IH]; [destruct Hin|].
  simpl. destruct Hin as [<-|Hin].
  - rewrite Ho. simpl.
    destruct (scan_statuses (pod_name p0) (pod_init_statuses p0 ++ pod_statuses p0));
      [discriminate|contradiction].
  - destruct (negb (IsOwnerMatched p0 uid)); [exact (IH Hin)|].
    destruct (scan_statuses (pod_name p0) (pod_init_statuses p0 ++ pod_statuses p0));
      [discriminate|exact (IH Hin)].
Qed.

Lemma workLoadDeployStat_fatal c labelMaps podss uid ps p cs :
  Forall2 (fun l ps => cl_list_pods c l = Ok ps) labelMaps podss ->
  In ps podss -> In p ps -> IsOwnerMatched p uid = true ->
  In cs (pod_init_statuses p ++ pod_statuses p) -> fatal_status cs ->
  exists p' cs' reason msg,
    (exists ps', In ps' podss /\ In p' ps') /\ IsOwnerMatched p' uid = true /\
    In cs' (pod_init_statuses p' ++ pod_statuses p') /\
    cs_waiting cs' = Some (reason, msg) /\ fatal_reason reason = true /\
    workLoadDeployStat c labelMaps uid =
      Some ("pod: " ++ pod_name p' ++ ", " ++ reason ++ ": " ++ msg).
Proof.
  intros F Hps Hp Ho Hcs Hf.
  induction F as [|l ps0 ls pss Hl F IH]; [destruct Hps|]. simpl. rewrite Hl.
  destruct (scan_pods uid ps0) as [e|] eqn:Es.
  - destruct (scan_pods_some uid ps0 e Es) as [p' [Hin' [Ho' Hs']]].
    destruct (scan_statuses_some _ _ _ Hs') as [cs' [r' [m' [Hc' [Hw' [Hf' ->]]]]]].
    exists p', cs', r', m'. repeat split; auto. exists ps0. split; [left; auto|auto].
  - destruct Hps as [<-|Hps].
    + exfalso. apply (scan_pods_fatal uid ps0 p Hp Ho (scan_statuses_fatal _ _ cs Hcs Hf)).
      exact Es.
    + destruct (IH Hps) as [p' [cs' [r' [m' [[ps' [? ?]] ?]]]]].
      exists p', cs', r', m'. split; [exists ps'; split; [right|]|]; auto.
Qed.

Lemma tick_loop_prefix_ready c labelMaps pre r post :
  Forall (fun r0 => workLoadDeployStat c labelMaps (PodOwnerUID r0) = None /\
                    resource_ready c (Kind r0) (Name r0) = true) pre ->
  forall e, workLoadDeployStat c labelMaps (PodOwnerUID r) = Some e ->
  tick_loop c labelMaps (pre ++ r :: post) true None = TickFailed e.
Proof.
  intros F e He. induction F as [|r0 pre [Hs Hr] F IH]; simpl; [now rewrite He|].
  rewrite Hs. unfold resource_ready in Hr.
  destruct (String.eqb (Kind r0) setting.Deployment).
  - destruct (cl_get_deployment c (Name r0)) as [[d|]|e0]; try discriminate.
    rewrite Hr. exact IH.
  - destruct (String.eqb (Kind r0) setting.StatefulSet).
    + destruct (cl_get_statefulset c (Name r0)) as [[s|]|e0]; try discriminate.
      rewrite Hr. exact IH.
    + exact IH.
Qed.

(** the same Deployment reached through the label path: WorkloadType is
    unknown and the label query lists [deploy_w] *)
Definition env_unknown_deploy : RunEnv :=
  mkRunEnv false None None (true, None) None (Ok false) (Ok "")
    (Ok [deploy_w]) (Ok []) (Ok ([], [])) (Ok [])
    (fun _ => Ok None) (fun _ => Ok None) (fun _ => Ok (None, None, false))
    (fun _ _ => None) (fun _ _ => None) (fun _ _ _ => None).

(** C7 (divergence).  On the known-WorkloadType path Run records no
    pod-template labels, unlike the unknown-WorkloadType path, which
    records them after every patch.  The new ReplicaSet's pod crash-loops:
    after the known-path Run the tick lists no pod, the Deployment is
    merely not ready, and Wait keeps polling with the task Running; after
    the unknown-path Run, which patched the same Deployment and recorded
    the same Resource, the same tick fails the task with the pod's
    reason. *)
Lemma wait_no_fast_fail_without_labels :
  getResourcesPodOwnerUID insertion_sort cluster_rolling (ReplaceResources task_after_run)
    = SetupOk [mkResource "Deployment" "api" "repo/app:1.0" "myservice" "uid-rs-2"] /\
  cl_list_pods cluster_rolling (w_template_labels deploy_w) = Ok [pod_crashing; pod_config_error] /\
  IsOwnerMatched pod_crashing "uid-rs-2" = true /\
  fatal_reason "CrashLoopBackOff" = true /\
  RelatedPodLabels task_after_run = [] /\
  snd (Wait insertion_sort cluster_rolling [EvDefault cluster_rolling] task_after_run) = WaitPolling /\
  TaskStatus (fst (Wait insertion_sort cluster_rolling [EvDefault cluster_rolling] task_after_run))
    = StatusRunning /\
  ReplaceResources (fst (Run env_unknown_deploy task0)) = ReplaceResources task_after_run /\
  RelatedPodLabels (fst (Run env_unknown_deploy task0)) = [w_template_labels deploy_w] /\
  Wait insertion_sort cluster_rolling [EvDefault cluster_rolling] (fst (Run env_unknown_deploy task0))
    = (set_error (set_status (set_resources (fst (Run env_unknown_deploy task0))
                                [mkResource "Deployment" "api" "repo/app:1.0" "myservice" "uid-rs-2"])
                             StatusFailed)
         "pod: myservice-7d9f-abcde, CrashLoopBackOff: back-off 5m0s restarting failed container",
       WaitReturned).
Proof. repeat split; reflexivity. Qed.

(** A default tick checks the tracked resources in order and
    stops at the first Deployment or StatefulSet that is not ready.  For a
    resource it reaches (every earlier one passed the pod check and was
    ready), it lists pods only through the label sets in RelatedPodLabels.
    If all these listings succeed and one listed pod owned by the
    resource's PodOwnerUID has an init or regular container waiting with
    reason ImagePullBackOff, ErrImagePull, CrashLoopBackOff or
    ErrImageNeverPull, Wait returns on that tick with Failed and Error
    "pod: <name>, <reason>: <message>" of such a listed, owned pod and
    container (the first one the scan meets). *)
Theorem wait_fast_fail (c : Cluster) (t : Task) (events : list Event)
  (pre : list Resource) (r : Resource) (post : list Resource)
  (podss : list (list Pod)) (ps : list Pod) (p : Pod) (cs : ContainerStatus) :
  ReplaceResources t = (pre ++ r :: post)%list ->
  Forall (fun r0 => workLoadDeployStat c (RelatedPodLabels t) (PodOwnerUID r0) = None /\
                    resource_ready c (Kind r0) (Name r0) = true) pre ->
  Forall2 (fun l ps => cl_list_pods c l = Ok ps) (RelatedPodLabels t) podss ->
  In ps podss -> In p ps -> IsOwnerMatched p (PodOwnerUID r) = true ->
  In cs (pod_init_statuses p ++ pod_statuses p) -> fatal_status cs ->
  exists p' cs' reason msg,
    (exists ps', In ps' podss /\ In p' ps') /\ IsOwnerMatched p' (PodOwnerUID r) = true /\
    In cs' (pod_init_statuses p' ++ pod_statuses p') /\
    cs_waiting cs' = Some (reason, msg) /\ fatal_reason reason = true /\
    wait_loop (EvDefault c :: events) t =
      (set_error (set_status t StatusFailed)
         ("pod: " ++ pod_name p' ++ ", " ++ reason ++ ": " ++ msg), WaitReturned).
Proof.
  intros Hrs Hpre F Hps Hp Ho Hcs Hf.
  destruct (workLoadDeployStat_fatal c (RelatedPodLabels t) podss (PodOwnerUID r) ps p cs
              F Hps Hp Ho Hcs Hf) as [p' [cs' [reason [msg [Hin [Ho' [Hc' [Hw [Hfr Hs]]]]]]]]].
  exists p', cs', reason, msg. repeat split; auto.
  simpl. rewrite Hrs, (tick_loop_prefix_ready c _ pre r post Hpre _ Hs). reflexivity.
Qed.

(** ** Witnesses: the theorems at concrete inputs *)

Definition deploy_status_ready : WorkloadStatus :=
  mkWorkloadStatus "myservice" "uid-deploy" 2 2 3 3 3.

Definition cluster_ready : Cluster :=
  mkCluster
    (fun n => if String.eqb n "myservice" then Ok (Some deploy_status_ready) else Ok None)
    (fun _ => Ok None) (fun _ => Ok [rs_old; rs_new]) (fun _ => Ok []).

Definition task_tracked : Task :=
  set_resources task_with_labels [mkResource "Deployment" "api" "repo/app:1.0" "myservice" "uid-rs-2"].

Lemma run_resources_all_or_failed_witness :
  Run env_nomatch task0 =
    (finalize (Some ("container " ++ TrimSuffix (ContainerName task0) ("_" ++ ServiceName task0)
                     ++ " is not found in resources ")) task0, ExitReturn).
Proof.
  apply (proj2 (run_resources_all_or_failed env_nomatch task0)
           (mkWorkloads [mkWorkload "shop-dev" "myservice" [mkContainerSpec "web" "repo/web:1.0"]
                           [("app", "myservice")]] [] [] []));
    [reflexivity | reflexivity | reflexivity |].
  intros w c [Hw|[Hw|[Hw|Hw]]] Hc; simpl in Hw; try contradiction.
  destruct Hw as [<-|[]]. simpl in Hc. destruct Hc as [<-|[]].
  vm_compute. discriminate.
Defined.

Lemma fetchRelatedWorkloads_fallback_iff_witness :
  snd (fetchRelatedWorkloads env_ok) = true.
Proof.
  apply (proj2 (proj1 (fetchRelatedWorkloads_fallback_iff env_ok))).
  split; [reflexivity|split; reflexivity].
Defined.

Lemma known_path_no_related_labels_witness :
  RelatedPodLabels (fst (Run env_ok task0)) = RelatedPodLabels task0 /\
  (RelatedPodLabels task0 = [] ->
   (forall c uid, workLoadDeployStat c (RelatedPodLabels (fst (Run env_ok task0))) uid = None) /\
   (forall c rs ready err e,
      tick_loop c (RelatedPodLabels (fst (Run env_ok task0))) rs ready err <> TickFailed e) /\
   (forall c, wait_timeout c (fst (Run env_ok task0)) = set_status (fst (Run env_ok task0)) StatusTimeout)).
Proof.
  apply (known_path_no_related_labels env_ok task0 "Deployment"); [reflexivity | discriminate].
Defined.

Lemma status_assignments_witness :
  TaskStatus (fst (Wait insertion_sort cluster_rolling [EvDefault cluster_rolling] task_after_run))
  = TaskStatus task_after_run.
Proof.
  apply (proj2 (proj2 (status_assignments insertion_sort))). reflexivity.
Defined.

(** the rolling Deployment, with no pod listed: a tick is not ready *)
Definition cluster_quiet : Cluster :=
  mkCluster
    (fun n => if String.eqb n "myservice" then Ok (Some deploy_status_rolling) else Ok None)
    (fun _ => Ok None) (fun _ => Ok [rs_old; rs_new]) (fun _ => Ok []).

Lemma wait_passed_only_when_ready_witness :
  exists pre c post,
    [EvDefault cluster_quiet; EvDefault cluster_ready] = (pre ++ EvDefault c :: post)%list /\
    wait_loop pre task_tracked = (task_tracked, WaitPolling) /\
    wait_loop (EvDefault c :: post) task_tracked
      = (set_status task_tracked StatusPassed, WaitReturned) /\
    set_status task_tracked StatusPassed = set_status task_tracked StatusPassed /\
    WaitReturned = WaitReturned /\
    tick_loop c (RelatedPodLabels task_tracked) (ReplaceResources task_tracked) true None
      = TickReady true /\
    Forall (fun r => resource_ready c (Kind r) (Name r) = true) (ReplaceResources task_tracked).
Proof.
  apply (proj1 wait_passed_only_when_ready [EvDefault cluster_quiet; EvDefault cluster_ready]
           task_tracked (set_status task_tracked StatusPassed) WaitReturned);
    [reflexivity | discriminate | reflexivity].
Defined.

Lemma getResourcesPodOwnerUID_fingerprints_witness :
  Forall2 (fingerprinted cluster_rolling) (ReplaceResources task_after_run)
    [mkResource "Deployment" "api" "repo/app:1.0" "myservice" "uid-rs-2"].
Proof.
  apply (getResourcesPodOwnerUID_fingerprints insertion_sort (insertion_sort_perm newer)
           insertion_sort_sorted cluster_rolling).
  reflexivity.
Defined.

Lemma wait_timeout_diagnostics_witness :
  Error (wait_timeout cluster_rolling task_with_labels) =
    match flat_map (flat_map pod_messages) [[pod_crashing; pod_config_error]] with
    | [] => Error task_with_labels
    | msg => join newline msg
    end.
Proof.
  apply (proj1 (proj2 (proj2 (wait_timeout_diagnostics cluster_rolling task_with_labels)))).
  constructor; [reflexivity | constructor].
Defined.

Lemma wait_fast_fail_witness :
  exists p' cs' reason msg,
    (exists ps', In ps' [[pod_crashing; pod_config_error]] /\ In p' ps') /\
    IsOwnerMatched p' "uid-rs-2" = true /\
    In cs' (pod_init_statuses p' ++ pod_statuses p') /\
    cs_waiting cs' = Some (reason, msg) /\ fatal_reason reason = true /\
    wait_loop [EvDefault cluster_rolling] task_tracked =
      (set_error (set_status task_tracked StatusFailed)
         ("pod: " ++ pod_name p' ++ ", " ++ reason ++ ": " ++ msg), WaitReturned).
Proof.
  apply (wait_fast_fail cluster_rolling task_tracked [] []
           (mkResource "Deployment" "api" "repo/app:1.0" "myservice" "uid-rs-2") []
           [[pod_crashing; pod_config_error]] [pod_crashing; pod_config_error] pod_crashing
           (mkContainerStatus (Some ("CrashLoopBackOff", "back-off 5m0s restarting failed container"))));
    [reflexivity | constructor | constructor; [reflexivity | constructor]
    | left; reflexivity | left; reflexivity | reflexivity | left; reflexivity
    | exists "CrashLoopBackOff", "back-off 5m0s restarting failed container"; split; reflexivity].
Defined.

(** ** Further properties of the plugin *)

(** *** Run: the fields it leaves alone and the resources it records *)

(** the fields of the task that neither Run nor Wait assigns *)
Definition same_identity (t t' : Task) : Prop :=
  EnvName t' = EnvName t /\ ProductName t' = ProductName t /\ Namespace t' = Namespace t /\
  ServiceName t' = ServiceName t /\ ServiceType t' = ServiceType t /\
  ContainerName t' = ContainerName t /\ Image t' = Image t /\ SkipWaiting t' = SkipWaiting t.

Lemma same_identity_refl t : same_identity t t.
Proof. repeat split. Qed.

Lemma same_identity_status t t1 s : same_identity t t1 -> same_identity t (set_status t1 s).
Proof. intros H; exact H. Qed.

Lemma same_identity_error t t1 e : same_identity t t1 -> same_identity t (set_error t1 e).
Proof. intros H; exact H. Qed.

Lemma same_identity_resources t t1 rs : same_identity t t1 -> same_identity t (set_resources t1 rs).
Proof. intros H; exact H. Qed.

Lemma same_identity_labels t t1 ls : same_identity t t1 -> same_identity t (set_labels t1 ls).
Proof. intros H; exact H. Qed.

Lemma same_identity_finalize t t1 err : same_identity t t1 -> same_identity t (finalize err t1).
Proof. destruct err; intros H; exact H. Qed.

Lemma first_match_some name ws w c :
  first_match name ws = Some (w, c) ->
  c_name c = name /\ In w ws /\ In c (w_containers w).
Proof.
  induction ws as [|w0 ws IH]; simpl; [discriminate|].
  destruct (find (fun c => String.eqb (c_name c) name) (w_containers w0)) as [c0|] eqn:E.
  - intros H. injection H as <- <-. apply find_some in E as [Hin Heq].
    apply String.eqb_eq in Heq. auto.
  - intros H. destruct (IH H) as [? [? ?]]. auto.
Qed.

(** the statements of Run after the preparation: how the task it leaves
    arises *)
Lemma run_body_cases env t t' err ex :
  run_body env t = (t', err, ex) ->
  t' = t \/
  exists wt r oe, run_prepare env t = Continue /\ env_service env = Ok wt /\
    (if String.eqb wt "" then resolve_unknown env (TrimSuffix (ContainerName t) ("_" ++ ServiceName t)) t
     else resolve_known env (TrimSuffix (ContainerName t) ("_" ++ ServiceName t)) wt t) = (t', r, oe).
Proof.
  unfold run_body. destruct (run_prepare env t) eqn:Hp;
    [| intros H; injection H as <- _ _; left; reflexivity
     | intros H; injection H as <- _ _; left; reflexivity].
  destruct (env_service env) as [wt|e] eqn:Hs; [|intros H; injection H as <- _ _; left; reflexivity].
  cbv zeta.
  destruct (if String.eqb wt "" then _ else _) as [[t1 r] oe] eqn:Er.
  intros H. right. exists wt, r, oe. split; [reflexivity|]. split; [reflexivity|].
  destruct oe; [|destruct r]; injection H as <- _ _; exact Er.
Qed.

(** an invariant of the resolution states holds of both resolution paths *)
Section ResolveInvariant.

Variable I : RState -> Prop.
Variable t : Task.
Variable name : string.

Hypothesis I_err : forall e, I (t, false, Some e).
Hypothesis I_init : I (t, false, None).
Hypothesis I_replace : forall kind path upd lab ws st,
  (kind = setting.Deployment \/ kind = setting.StatefulSet \/ kind = setting.CronJob) ->
  I st -> I (replace_in kind path upd lab name ws st).

Lemma and_then_inv st k :
  I st -> (forall st', I st' -> I (k st')) -> I (and_then st k).
Proof. destruct st as [[t1 r] [e|]]; simpl; auto. Qed.

Lemma resolve_unknown_inv env : I (resolve_unknown env name t).
Proof.
  unfold resolve_unknown. destruct (fst (fetchRelatedWorkloads env)) as [wl|e]; [|apply I_err].
  apply and_then_inv; [apply I_replace; [left; reflexivity | apply I_init]|]. intros st1 H1.
  apply and_then_inv; [apply I_replace; [right; left; reflexivity | exact H1]|]. intros st2 H2.
  apply and_then_inv; [apply I_replace; [right; right; reflexivity | exact H2]|]. intros st3 H3.
  apply I_replace; [right; right; reflexivity | exact H3].
Qed.

Lemma resolve_known_inv env wt : I (resolve_known env name wt t).
Proof.
  unfold resolve_known.
  destruct (String.eqb wt setting.StatefulSet).
  { destruct (env_get_statefulset env (ServiceName t)) as [[s|]|e]; try apply I_err.
    apply I_replace; [right; left; reflexivity | apply I_init]. }
  destruct (String.eqb wt setting.Deployment).
  { destruct (env_get_deployment env (ServiceName t)) as [[d|]|e]; try apply I_err.
    apply I_replace; [left; reflexivity | apply I_init]. }
  destruct (String.eqb wt setting.CronJob); [|apply I_init].
  destruct (env_get_cronjob env (ServiceName t)) as [[[c b] [|]]|e]; try apply I_err.
  apply and_then_inv.
  - destruct c; [apply I_replace; [right; right; reflexivity|]|]; apply I_init.
  - intros st1 H1. destruct b; [apply I_replace; [right; right; reflexivity|]|]; exact H1.
Qed.

End ResolveInvariant.

(** what Run records in ReplaceResources for the container [name] *)
Definition run_recorded (name : string) (r : Resource) : Prop :=
  Container r = name /\ PodOwnerUID r = "" /\
  (Kind r = setting.Deployment \/ Kind r = setting.StatefulSet \/ Kind r = setting.CronJob).

Definition shaped (name : string) (t : Task) (st : RState) : Prop :=
  let '(t1, _, _) := st in
  same_identity t t1 /\
  exists new, ReplaceResources t1 = (ReplaceResources t ++ new)%list /\
              Forall (run_recorded name) new.

Lemma replace_in_shaped name t kind path upd lab ws st :
  (kind = setting.Deployment \/ kind = setting.StatefulSet \/ kind = setting.CronJob) ->
  shaped name t st -> shaped name t (replace_in kind path upd lab name ws st).
Proof.
  intros Hk. destruct st as [[t1 r] oe]. intros [Hid [new [Hn Hf]]]. unfold replace_in.
  destruct (first_match name ws) as [[w c]|] eqn:Em; [|split; [exact Hid|exists new; auto]].
  destruct (upd (w_namespace w) (w_name w)); [split; [exact Hid|exists new; auto]|].
  destruct (first_match_some name ws w c Em) as [Hc _].
  split.
  - destruct lab; [apply same_identity_labels|]; apply same_identity_resources; exact Hid.
  - exists (new ++ [mkResource kind (c_name c) (c_image c) (w_name w) ""])%list. split.
    + destruct lab; simpl; rewrite Hn, app_assoc; reflexivity.
    + apply Forall_app. split; [exact Hf|]. constructor; [|constructor].
      unfold run_recorded; simpl. auto.
Qed.

Lemma shaped_init name t : shaped name t (t, false, None).
Proof. split; [apply same_identity_refl|]. exists []. rewrite app_nil_r. auto. Qed.

Lemma shaped_err name t e : shaped name t (t, false, Some e).
Proof. split; [apply same_identity_refl|]. exists []. rewrite app_nil_r. auto. Qed.

(** Run never assigns the identifying fields of the task (environment,
    product, namespace, service, container, image, SkipWaiting); it only
    appends to ReplaceResources, and every Resource it appends names the
    container with the service suffix stripped, carries an empty
    PodOwnerUID and is of kind Deployment, StatefulSet or CronJob. *)
Theorem run_records_stripped_container (env : RunEnv) (t : Task) :
  same_identity t (fst (Run env t)) /\
  exists new, ReplaceResources (fst (Run env t)) = (ReplaceResources t ++ new)%list /\
    Forall (run_recorded (TrimSuffix (ContainerName t) ("_" ++ ServiceName t))) new.
Proof.
  set (name := TrimSuffix (ContainerName t) ("_" ++ ServiceName t)).
  unfold Run. destruct (run_body env t) as [[t' err] ex] eqn:Hb. simpl.
  rewrite finalize_resources.
  destruct (run_body_cases env t t' err ex Hb) as [->|[wt [r [oe [_ [_ Hr]]]]]].
  - split; [apply same_identity_finalize, same_identity_refl|].
    exists []. rewrite app_nil_r. auto.
  - assert (S : shaped name t (t', r, oe)).
    { rewrite <- Hr. destruct (String.eqb wt "").
      - apply (resolve_unknown_inv (shaped name t)); auto using shaped_init, shaped_err.
        intros; apply replace_in_shaped; auto.
      - apply (resolve_known_inv (shaped name t)); auto using shaped_init, shaped_err.
        intros; apply replace_in_shaped; auto. }
    destruct S as [Hid [new [Hn Hf]]].
    split; [apply same_identity_finalize; exact Hid|]. exists new. auto.
Qed.

(** *** Run: what the unknown-WorkloadType path patches *)

Definition all_workloads (wl : Workloads) : list Workload :=
  (deployments wl ++ statefulSets wl ++ cronJobs wl ++ cronJobBetas wl)%list.

(** the i-th label set recorded is the pod-template labels of the workload
    of the i-th recorded Resource *)
Definition lockstep (wl : Workloads) (t : Task) (st : RState) : Prop :=
  let '(t1, _, _) := st in
  exists newR newL,
    ReplaceResources t1 = (ReplaceResources t ++ newR)%list /\
    RelatedPodLabels t1 = (RelatedPodLabels t ++ newL)%list /\
    Forall2 (fun r l => exists w, In w (all_workloads wl) /\ Name r = w_name w /\
                                  l = w_template_labels w) newR newL.

Lemma lockstep_init wl t e : lockstep wl t (t, false, e).
Proof. exists [], []. rewrite !app_nil_r. auto. Qed.

Lemma replace_in_lockstep wl t kind path upd name ws st :
  (forall w, In w ws -> In w (all_workloads wl)) ->
  lockstep wl t st -> lockstep wl t (replace_in kind path upd true name ws st).
Proof.
  intros Hws. destruct st as [[t1 r] oe]. intros [newR [newL [HR [HL F]]]]. unfold replace_in.
  destruct (first_match name ws) as [[w c]|] eqn:Em; [|exists newR, newL; auto].
  destruct (upd (w_namespace w) (w_name w)); [exists newR, newL; auto|].
  destruct (first_match_some name ws w c Em) as [_ [Hw _]].
  exists (newR ++ [mkResource kind (c_name c) (c_image c) (w_name w) ""])%list,
         (newL ++ [w_template_labels w])%list.
  simpl. rewrite HR, HL, !app_assoc. split; [reflexivity|]. split; [reflexivity|].
  apply Forall2_app; [exact F|]. constructor; [|constructor]. exists w. simpl. auto.
Qed.

(** the first workload of [ws] with a container named [name], as the
    Resource and the label set the loop records for it *)
Definition patched (kind name : string) (ws : list Workload) : list Resource :=
  match first_match name ws with
  | Some (w, c) => [mkResource kind (c_name c) (c_image c) (w_name w) ""]
  | None => []
  end.

Definition patched_labels (name : string) (ws : list Workload) : list Labels :=
  match first_match name ws with
  | Some (w, _) => [w_template_labels w]
  | None => []
  end.

Definition has_match (name : string) (ws : list Workload) : bool :=
  match first_match name ws with Some _ => true | None => false end.

Definition ok_state (t : Task) (newR : list Resource) (newL : list Labels) (r : bool)
    (st : RState) : Prop :=
  let '(t1, r1, oe1) := st in
  ReplaceResources t1 = (ReplaceResources t ++ newR)%list /\
  RelatedPodLabels t1 = (RelatedPodLabels t ++ newL)%list /\
  TaskStatus t1 = TaskStatus t /\ Error t1 = Error t /\ r1 = r /\ oe1 = None.

Lemma ok_init t : ok_state t [] [] false (t, false, None).
Proof. simpl. rewrite !app_nil_r. repeat split. Qed.

Lemma replace_in_ok t kind path upd name ws st newR newL r :
  (forall ns n, upd ns n = None) -> ok_state t newR newL r st ->
  ok_state t (newR ++ patched kind name ws) (newL ++ patched_labels name ws)
    (r || has_match name ws) (replace_in kind path upd true name ws st).
Proof.
  intros Hu. destruct st as [[t1 r1] oe1]. intros [HR [HL [HS [HE [-> ->]]]]].
  unfold replace_in, patched, patched_labels, has_match.
  destruct (first_match name ws) as [[w c]|].
  - rewrite Hu. simpl. rewrite HR, HL, !app_assoc, orb_true_r. repeat split; assumption.
  - simpl. rewrite !app_nil_r, orb_false_r. repeat split; assumption.
Qed.

Lemma and_then_ok t newR newL r st k : ok_state t newR newL r st -> and_then st k = k st.
Proof. destruct st as [[t1 r1] oe1]. intros [_ [_ [_ [_ [_ ->]]]]]. reflexivity. Qed.

Lemma ok_state_eq t newR newL r newR' newL' r' st :
  ok_state t newR newL r st -> newR = newR' -> newL = newL' -> r = r' ->
  ok_state t newR' newL' r' st.
Proof. intros H -> -> ->. exact H. Qed.

Lemma patched_nil kind name ws : patched kind name ws = [] <-> has_match name ws = false.
Proof. unfold patched, has_match. destruct (first_match name ws) as [[w c]|]; split; congruence. Qed.

Lemma resolve_unknown_ok env name t wl :
  fst (fetchRelatedWorkloads env) = Ok wl ->
  (forall ns n, env_update_deployment env ns n = None) ->
  (forall ns n, env_update_statefulset env ns n = None) ->
  (forall ns n, env_update_cronjob env ns n false = None) ->
  ok_state t
    (patched setting.Deployment name (deployments wl)
       ++ patched setting.StatefulSet name (statefulSets wl)
       ++ patched setting.CronJob name (cronJobs wl)
       ++ patched setting.CronJob name (cronJobBetas wl))%list
    (patched_labels name (deployments wl) ++ patched_labels name (statefulSets wl)
       ++ patched_labels name (cronJobs wl) ++ patched_labels name (cronJobBetas wl))%list
    (has_match name (deployments wl) || has_match name (statefulSets wl)
       || has_match name (cronJobs wl) || has_match name (cronJobBetas wl))
    (resolve_unknown env name t).
Proof.
  intros Hf Hd Hs Hc. unfold resolve_unknown. rewrite Hf.
  erewrite and_then_ok; [|apply replace_in_ok; [exact Hd|apply ok_init]]. cbv beta.
  erewrite and_then_ok;
    [|apply replace_in_ok; [exact Hs|apply replace_in_ok; [exact Hd|apply ok_init]]]. cbv beta.
  erewrite and_then_ok;
    [|apply replace_in_ok; [exact Hc|apply replace_in_ok; [exact Hs|
        apply replace_in_ok; [exact Hd|apply ok_init]]]]. cbv beta.
  eapply ok_state_eq.
  - apply replace_in_ok; [exact Hc|]. apply replace_in_ok; [exact Hc|].
    apply replace_in_ok; [exact Hs|]. apply replace_in_ok; [exact Hd|]. apply ok_init.
  - simpl. rewrite <- !app_assoc. reflexivity.
  - simpl. rewrite <- !app_assoc. reflexivity.
  - destruct (has_match name (deployments wl)), (has_match name (statefulSets wl)),
      (has_match name (cronJobs wl)), (has_match name (cronJobBetas wl)); reflexivity.
Qed.

(** On the unknown-WorkloadType path, once the related workloads are
    fetched, Run records label sets in lockstep with Resources: whatever
    patch fails, the label sets it appends to RelatedPodLabels are, one for
    one and in order, the pod-template labels of the workloads named by the
    Resources it appends to ReplaceResources. *)
Theorem run_unknown_labels_lockstep (env : RunEnv) (t : Task) (wl : Workloads) :
  env_service env = Ok "" -> fst (fetchRelatedWorkloads env) = Ok wl ->
  exists newR newL,
    ReplaceResources (fst (Run env t)) = (ReplaceResources t ++ newR)%list /\
    RelatedPodLabels (fst (Run env t)) = (RelatedPodLabels t ++ newL)%list /\
    Forall2 (fun r l => exists w, In w (all_workloads wl) /\ Name r = w_name w /\
                                  l = w_template_labels w) newR newL.
Proof.
  intros Hs Hf. unfold Run. destruct (run_body env t) as [[t' err] ex] eqn:Hb. simpl.
  rewrite finalize_resources, finalize_labels.
  destruct (run_body_cases env t t' err ex Hb) as [->|[wt [r [oe [_ [Hs' Hr]]]]]].
  - exists [], []. rewrite !app_nil_r. auto.
  - rewrite Hs in Hs'. injection Hs' as <-. change (String.eqb "" "") with true in Hr.
    cbv iota in Hr. unfold resolve_unknown in Hr. rewrite Hf in Hr.
    assert (L : lockstep wl t (t', r, oe)).
    { rewrite <- Hr.
      assert (Sub : forall ws, (forall w, In w ws -> In w (all_workloads wl)) ->
                forall st, lockstep wl t st ->
                lockstep wl t (replace_in setting.CronJob "statefulsets"
                  (fun ns n => env_update_cronjob env ns n false) true
                  (TrimSuffix (ContainerName t) ("_" ++ ServiceName t)) ws st)).
      { intros ws Hws st Hst. apply replace_in_lockstep; assumption. }
      apply and_then_inv.
      { apply replace_in_lockstep; [|apply lockstep_init].
        intros w Hw. unfold all_workloads. rewrite !in_app_iff. tauto. }
      intros st1 H1. apply and_then_inv.
      { apply replace_in_lockstep; [|exact H1].
        intros w Hw. unfold all_workloads. rewrite !in_app_iff. tauto. }
      intros st2 H2. apply and_then_inv.
      { apply Sub; [|exact H2]. intros w Hw. unfold all_workloads. rewrite !in_app_iff. tauto. }
      intros st3 H3. apply Sub; [|exact H3].
      intros w Hw. unfold all_workloads. rewrite !in_app_iff. tauto. }
    exact L.
Qed.

(** On the unknown-WorkloadType path, when every patch succeeds, Run
    patches in each of the four lists (Deployments, StatefulSets, CronJobs,
    CronJobBetas, in that order) the first workload having a container
    named like the task's container, and only that one: further workloads
    with the same container are left alone.  It appends one Resource and
    one label set per list with a match, and fails with the not-found error
    exactly when no list has one. *)
Theorem run_unknown_patches_first_match (env : RunEnv) (t : Task) (wl : Workloads) :
  run_prepare env t = Continue -> env_service env = Ok "" ->
  fst (fetchRelatedWorkloads env) = Ok wl ->
  (forall ns n, env_update_deployment env ns n = None) ->
  (forall ns n, env_update_statefulset env ns n = None) ->
  (forall ns n, env_update_cronjob env ns n false = None) ->
  let name := TrimSuffix (ContainerName t) ("_" ++ ServiceName t) in
  let newR := (patched setting.Deployment name (deployments wl)
               ++ patched setting.StatefulSet name (statefulSets wl)
               ++ patched setting.CronJob name (cronJobs wl)
               ++ patched setting.CronJob name (cronJobBetas wl))%list in
  ReplaceResources (fst (Run env t)) = (ReplaceResources t ++ newR)%list /\
  RelatedPodLabels (fst (Run env t)) =
    (RelatedPodLabels t ++ patched_labels name (deployments wl)
       ++ patched_labels name (statefulSets wl) ++ patched_labels name (cronJobs wl)
       ++ patched_labels name (cronJobBetas wl))%list /\
  snd (Run env t) = ExitReturn /\
  (newR <> [] -> TaskStatus (fst (Run env t)) = TaskStatus t /\
                 Error (fst (Run env t)) = Error t) /\
  (newR = [] -> TaskStatus (fst (Run env t)) = StatusFailed /\
                Error (fst (Run env t)) = "container " ++ name ++ " is not found in resources ").
Proof.
  intros Hp Hs Hf Hd Hst Hc name newR.
  pose proof (resolve_unknown_ok env name t wl Hf Hd Hst Hc) as S.
  unfold Run, run_body. rewrite Hp, Hs. cbv zeta.
  change (String.eqb "" "") with true. cbv iota. fold name.
  destruct (resolve_unknown env name t) as [[t1 r1] oe1].
  destruct S as [HR [HL [HS [HE [-> ->]]]]].
  assert (Hm : newR = [] <-> (has_match name (deployments wl) || has_match name (statefulSets wl)
       || has_match name (cronJobs wl) || has_match name (cronJobBetas wl)) = false).
  { unfold newR. split.
    - intros H. apply app_eq_nil in H as [H1 H]. apply app_eq_nil in H as [H2 H].
      apply app_eq_nil in H as [H3 H4].
      apply patched_nil in H1, H2, H3, H4. rewrite H1, H2, H3, H4. reflexivity.
    - intros E. rewrite !orb_false_iff in E. destruct E as [[[H1 H2] H3] H4].
      rewrite (proj2 (patched_nil setting.Deployment _ _) H1),
        (proj2 (patched_nil setting.StatefulSet _ _) H2),
        (proj2 (patched_nil setting.CronJob _ _) H3),
        (proj2 (patched_nil setting.CronJob _ _) H4). reflexivity. }
  destruct (has_match name (deployments wl) || has_match name (statefulSets wl)
       || has_match name (cronJobs wl) || has_match name (cronJobBetas wl)) eqn:Eb.
  - split; [exact HR|]. split; [exact HL|]. split; [reflexivity|]. split.
    + intros _. split; assumption.
    + intros Hn. apply Hm in Hn. discriminate.
  - split; [exact HR|]. split; [exact HL|]. split; [reflexivity|]. split.
    + intros Hn. exfalso. apply Hn. apply Hm. reflexivity.
    + intros _. split; reflexivity.
Qed.

(** *** Run: error paths *)

Lemma replace_in_first_ok kind path upd name ws t0 r0 :
  (forall w c, first_match name ws = Some (w, c) -> upd (w_namespace w) (w_name w) = None) ->
  exists t', replace_in kind path upd true name ws (t0, r0, None)
               = (t', r0 || has_match name ws, None) /\
    ReplaceResources t' = (ReplaceResources t0 ++ patched kind name ws)%list /\
    Namespace t' = Namespace t0.
Proof.
  intros Hu. unfold replace_in, patched, has_match.
  destruct (first_match name ws) as [[w c]|] eqn:E.
  - rewrite (Hu w c eq_refl). rewrite orb_true_r. eexists. split; [reflexivity|].
    split; reflexivity.
  - exists t0. rewrite orb_false_r, app_nil_r. auto.
Qed.

Lemma replace_in_first_fails kind path upd name ws t1 r1 w c e :
  first_match name ws = Some (w, c) -> upd (w_namespace w) (w_name w) = Some e ->
  replace_in kind path upd true name ws (t1, r1, None) =
    (t1, r1, Some (with_message e ("failed to update container image in "
                   ++ Namespace t1 ++ "/" ++ path ++ "/" ++ w_name w ++ "/" ++ c_name c))).
Proof. intros H1 H2. unfold replace_in. rewrite H1, H2. reflexivity. Qed.

(** On the unknown-WorkloadType path, a failed batch/v1 CronJob patch ends
    the run and is reported under "statefulsets": once the patches of the
    first matching Deployment and StatefulSet (if any) have succeeded, a
    failed patch of the first matching CronJob with [e] makes Run fail with
    "failed to update container image in
    <namespace>/statefulsets/<cronjob>/<container>: e"; the Deployment and
    StatefulSet already patched stay recorded, the CronJob is not. *)
Theorem run_unknown_cron_error_says_statefulsets (env : RunEnv) (t : Task) (wl : Workloads)
  (w : Workload) (c : ContainerSpec) (e : string) :
  run_prepare env t = Continue -> env_service env = Ok "" ->
  fst (fetchRelatedWorkloads env) = Ok wl ->
  let name := TrimSuffix (ContainerName t) ("_" ++ ServiceName t) in
  (forall wd cd, first_match name (deployments wl) = Some (wd, cd) ->
     env_update_deployment env (w_namespace wd) (w_name wd) = None) ->
  (forall ws cs, first_match name (statefulSets wl) = Some (ws, cs) ->
     env_update_statefulset env (w_namespace ws) (w_name ws) = None) ->
  first_match name (cronJobs wl) = Some (w, c) ->
  env_update_cronjob env (w_namespace w) (w_name w) false = Some e ->
  snd (Run env t) = ExitReturn /\
  TaskStatus (fst (Run env t)) = StatusFailed /\
  Error (fst (Run env t)) =
    with_message e ("failed to update container image in " ++ Namespace t
                    ++ "/statefulsets/" ++ w_name w ++ "/" ++ c_name c) /\
  ReplaceResources (fst (Run env t)) =
    (ReplaceResources t ++ patched setting.Deployment name (deployments wl)
       ++ patched setting.StatefulSet name (statefulSets wl))%list.
Proof.
  intros Hp Hs Hf name Hd Hst Hc He.
  assert (Hr : exists t2 r2,
    resolve_unknown env name t =
      (t2, r2, Some (with_message e ("failed to update container image in " ++ Namespace t2
                       ++ "/" ++ "statefulsets" ++ "/" ++ w_name w ++ "/" ++ c_name c))) /\
    ReplaceResources t2 = (ReplaceResources t ++ patched setting.Deployment name (deployments wl)
                            ++ patched setting.StatefulSet name (statefulSets wl))%list /\
    Namespace t2 = Namespace t).
  { unfold resolve_unknown. rewrite Hf.
    destruct (replace_in_first_ok setting.Deployment "deployments" (env_update_deployment env)
                name (deployments wl) t false Hd) as [t1 [E1 [R1 N1]]].
    rewrite E1. unfold and_then at 1. cbv beta iota.
    destruct (replace_in_first_ok setting.StatefulSet "statefulsets" (env_update_statefulset env)
                name (statefulSets wl) t1 (false || has_match name (deployments wl)) Hst)
      as [t2 [E2 [R2 N2]]].
    rewrite E2. unfold and_then at 1. cbv beta iota.
    rewrite (replace_in_first_fails setting.CronJob "statefulsets"
               (fun ns n => env_update_cronjob env ns n false) name (cronJobs wl) t2
               (false || has_match name (deployments wl) || has_match name (statefulSets wl))
               w c e Hc He).
    unfold and_then at 1. cbv beta iota.
    eexists; eexists. split; [reflexivity|]. split.
    - rewrite R2, R1, app_assoc. reflexivity.
    - rewrite N2, N1. reflexivity. }
  destruct Hr as [t2 [r2 [Hr [R N]]]].
  unfold Run, run_body. rewrite Hp, Hs. cbv zeta.
  change (String.eqb "" "") with true. cbv iota. fold name. rewrite Hr. simpl.
  split; [reflexivity|]. split; [reflexivity|]. split.
  - rewrite N. reflexivity.
  - exact R.
Qed.

(** Run checks the product before it looks up the service: on a cluster
    whose clients are available and whose server version is known, a
    sleeping product makes Run fail with "product <product>/<env> is
    sleeping", and a failed product lookup with "failed to get product
    <namespace>/<service>: <error>" (the namespace and service, not the
    product and environment); in both cases nothing is recorded. *)
Theorem run_product_check (env : RunEnv) (t : Task) :
  (DeployClusterID_set env = false \/
   (env_rest_config env = None /\ env_kube_client env = None /\
    env_kube_clientset env = (true, None))) ->
  env_server_version env = None ->
  (env_product env = Ok true ->
     Run env t = (finalize (Some ("product " ++ ProductName t ++ "/" ++ EnvName t
                                  ++ " is sleeping")) t, ExitReturn)) /\
  (forall e, env_product env = Err e ->
     Run env t = (finalize (Some (with_message e ("failed to get product "
                                  ++ Namespace t ++ "/" ++ ServiceName t))) t, ExitReturn)).
Proof.
  intros Hc Hv.
  assert (P : forall res, env_product env = res ->
            run_prepare env t =
              match res with
              | Err e => Return (Some (with_message e ("failed to get product "
                                  ++ Namespace t ++ "/" ++ ServiceName t)))
              | Ok true => Return (Some ("product " ++ ProductName t ++ "/" ++ EnvName t
                                  ++ " is sleeping"))
              | Ok false => Continue
              end).
  { intros res Hr. unfold run_prepare. cbv zeta.
    destruct (DeployClusterID_set env).
    - destruct Hc as [Hc|[H1 [H2 H3]]]; [discriminate|]. rewrite H1, H2, H3. cbv iota beta.
      simpl negb. cbv iota. rewrite Hv, Hr. reflexivity.
    - simpl negb. cbv iota. rewrite Hv, Hr. reflexivity. }
  split.
  - intros Hp. unfold Run, run_body. rewrite (P _ Hp). reflexivity.
  - intros e Hp. unfold Run, run_body. rewrite (P _ Hp). reflexivity.
Qed.

(** On the known-WorkloadType path: a WorkloadType other than StatefulSet,
    Deployment or CronJob (the comparison is exact) patches nothing and
    Run fails with the container-not-found error; a StatefulSet or
    Deployment named after the service that does not exist, or a CronJob
    the getter does not find, makes Run fail with "<kind>: <service> not
    found"; a Deployment found without a container of that name fails with
    the container-not-found error.  In each case nothing is recorded. *)
Theorem run_known_path_edges (env : RunEnv) (t : Task) (wt : string) :
  run_prepare env t = Continue -> env_service env = Ok wt ->
  let name := TrimSuffix (ContainerName t) ("_" ++ ServiceName t) in
  (wt <> "" -> wt <> setting.StatefulSet -> wt <> setting.Deployment -> wt <> setting.CronJob ->
     Run env t = (finalize (Some ("container " ++ name ++ " is not found in resources ")) t,
                  ExitReturn)) /\
  (wt = setting.StatefulSet -> env_get_statefulset env (ServiceName t) = Ok None ->
     Run env t = (finalize (Some ("statefulset: " ++ ServiceName t ++ " not found")) t,
                  ExitReturn)) /\
  (wt = setting.Deployment -> env_get_deployment env (ServiceName t) = Ok None ->
     Run env t = (finalize (Some ("deployment: " ++ ServiceName t ++ " not found")) t,
                  ExitReturn)) /\
  (forall c b, wt = setting.CronJob -> env_get_cronjob env (ServiceName t) = Ok (c, b, false) ->
     Run env t = (finalize (Some ("cronJob: " ++ ServiceName t ++ " not found")) t,
                  ExitReturn)) /\
  (forall d, wt = setting.Deployment -> env_get_deployment env (ServiceName t) = Ok (Some d) ->
     (forall c, In c (w_containers d) -> c_name c <> name) ->
     Run env t = (finalize (Some ("container " ++ name ++ " is not found in resources ")) t,
                  ExitReturn)).
Proof.
  intros Hp Hs name.
  assert (R : forall wt', env_service env = Ok wt' -> wt' <> "" ->
            Run env t = (let '(t1, replaced, oe) := resolve_known env name wt' t in
                         match oe with
                         | Some e => (finalize (Some e) t1, ExitReturn)
                         | None => if replaced then (finalize None t1, ExitReturn)
                                   else (finalize (Some ("container " ++ name
                                          ++ " is not found in resources ")) t1, ExitReturn)
                         end)).
  { intros wt' Hw Hne. unfold Run, run_body. rewrite Hp, Hw. cbv zeta. fold name.
    rewrite (proj2 (String.eqb_neq wt' "") Hne). cbv iota.
    destruct (resolve_known env name wt' t) as [[t1 r] [e|]]; [reflexivity|].
    destruct r; reflexivity. }
  split; [|split; [|split; [|split]]].
  - intros H0 H1 H2 H3. rewrite (R wt Hs H0). unfold resolve_known.
    rewrite (proj2 (String.eqb_neq _ _) H1), (proj2 (String.eqb_neq _ _) H2),
      (proj2 (String.eqb_neq _ _) H3). reflexivity.
  - intros -> Hg. rewrite (R _ Hs ltac:(discriminate)). unfold resolve_known.
    rewrite String.eqb_refl, Hg. reflexivity.
  - intros -> Hg. rewrite (R _ Hs ltac:(discriminate)). unfold resolve_known.
    change (String.eqb setting.Deployment setting.StatefulSet) with false. cbv iota.
    rewrite String.eqb_refl, Hg. reflexivity.
  - intros c b -> Hg. rewrite (R _ Hs ltac:(discriminate)). unfold resolve_known.
    change (String.eqb setting.CronJob setting.StatefulSet) with false.
    change (String.eqb setting.CronJob setting.Deployment) with false. cbv iota.
    rewrite String.eqb_refl, Hg. reflexivity.
  - intros d -> Hg Hno. rewrite (R _ Hs ltac:(discriminate)). unfold resolve_known.
    change (String.eqb setting.Deployment setting.StatefulSet) with false. cbv iota.
    rewrite String.eqb_refl, Hg. unfold replace_in.
    rewrite (first_match_none name [d]); [reflexivity|].
    intros w c [<-|[]] Hc. exact (Hno c Hc).
Qed.

(** *** Wait: what it changes and when it returns *)

Ltac identity_kept := unfold same_identity; repeat split.

Lemma wait_timeout_frame c t :
  same_identity t (wait_timeout c t) /\ RelatedPodLabels (wait_timeout c t) = RelatedPodLabels t /\
  ReplaceResources (wait_timeout c t) = ReplaceResources t.
Proof.
  unfold wait_timeout. destruct (timeout_scan c _ []) as [[|m ms]|e];
    (split; [identity_kept|split; reflexivity]).
Qed.

Lemma wait_loop_frame events t t' w :
  wait_loop events t = (t', w) ->
  same_identity t t' /\ RelatedPodLabels t' = RelatedPodLabels t /\
  ReplaceResources t' = ReplaceResources t.
Proof.
  revert t. induction events as [|ev events IH]; intros t Hw; simpl in Hw.
  - injection Hw as <- _. split; [identity_kept|auto].
  - destruct ev as [|c|c].
    + injection Hw as <- _. split; [identity_kept|auto].
    + injection Hw as <- _. apply wait_timeout_frame.
    + destruct (tick_loop c (RelatedPodLabels t) (ReplaceResources t) true None) as [e|ready].
      * injection Hw as <- _. split; [identity_kept|auto].
      * destruct (IsTaskDone (if ready then set_status t StatusPassed else t)).
        -- injection Hw as <- _. destruct ready; (split; [identity_kept|auto]).
        -- destruct (IH _ Hw) as [H1 [H2 H3]].
           destruct ready; (split; [exact H1|split; assumption]).
Qed.

(** Wait never assigns the identifying fields of the task nor
    RelatedPodLabels; the ReplaceResources it leaves are the fingerprinted
    list when the fingerprints were computed (not under SkipWaiting), and
    the recorded list otherwise. *)
Theorem wait_frame (sort_slice : (ReplicaSet -> ReplicaSet -> bool) -> list ReplicaSet -> list ReplicaSet)
  (setup : Cluster) (events : list Event) (t t' : Task) (w : WaitEnd) :
  Wait sort_slice setup events t = (t', w) ->
  same_identity t t' /\ RelatedPodLabels t' = RelatedPodLabels t /\
  ReplaceResources t' =
    match SkipWaiting t, getResourcesPodOwnerUID sort_slice setup (ReplaceResources t) with
    | false, SetupOk rs => rs
    | _, _ => ReplaceResources t
    end.
Proof.
  unfold Wait. destruct (SkipWaiting t).
  - intros H. injection H as <- _. split; [identity_kept|auto].
  - destruct (getResourcesPodOwnerUID sort_slice setup (ReplaceResources t)) as [rs|partial e|].
    + intros H. destruct (wait_loop_frame _ _ _ _ H) as [H1 [H2 H3]].
      split; [exact H1|split; assumption].
    + intros H. injection H as <- _. split; [identity_kept|auto].
    + intros H. injection H as <- _. split; [identity_kept|auto].
Qed.

Lemma wait_loop_returned events t t' :
  wait_loop events t = (t', WaitReturned) -> IsTaskDone t' = true.
Proof.
  revert t. induction events as [|ev events IH]; intros t Hw; simpl in Hw; [discriminate|].
  destruct ev as [|c|c].
  - injection Hw as <-. reflexivity.
  - injection Hw as <-. unfold IsTaskDone. rewrite wait_timeout_status. reflexivity.
  - destruct (tick_loop c (RelatedPodLabels t) (ReplaceResources t) true None) as [e|ready].
    + injection Hw as <-. reflexivity.
    + destruct (IsTaskDone (if ready then set_status t StatusPassed else t)) eqn:Ed.
      * injection Hw as <-. exact Ed.
      * exact (IH _ Hw).
Qed.

(** IsTaskFailed implies IsTaskDone; and whenever Wait returns, the task
    is done (its status is neither Created nor Running), except when the
    fingerprints could not be computed: Wait then only records
    "get resource owner info error: <error>" and leaves the task as it
    was. *)
Theorem wait_returns_done :
  (forall u, IsTaskFailed u = true -> IsTaskDone u = true) /\
  (forall sort_slice setup events t t',
     Wait sort_slice setup events t = (t', WaitReturned) ->
     IsTaskDone t' = true \/
     (SkipWaiting t = false /\
      exists partial e, getResourcesPodOwnerUID sort_slice setup (ReplaceResources t) = SetupErr partial e /\
        t' = set_error t ("get resource owner info error: " ++ e))).
Proof.
  split.
  - intros u. unfold IsTaskFailed, IsTaskDone. destruct (TaskStatus u); auto.
  - intros sort_slice setup events t t'. unfold Wait. destruct (SkipWaiting t) eqn:Sk.
    + intros H. injection H as <-. left. reflexivity.
    + destruct (getResourcesPodOwnerUID sort_slice setup (ReplaceResources t)) as [rs|partial e|] eqn:Eg.
      * intros H. left. exact (wait_loop_returned _ _ _ H).
      * intros H. injection H as <-. right. split; [reflexivity|]. exists partial, e. auto.
      * discriminate.
Qed.

(** the outcome of a default tick, written without the outer [err]
    variable the loop threads *)
Fixpoint tick_outcome (c : Cluster) (labelMaps : list Labels) (rs : list Resource) : Tick :=
  match rs with
  | [] => TickReady true
  | r :: rs' =>
      match workLoadDeployStat c labelMaps (PodOwnerUID r) with
      | Some e => TickFailed e
      | None => if resource_ready c (Kind r) (Name r) then tick_outcome c labelMaps rs'
                else TickReady false
      end
  end.

(** A default tick visits the tracked resources in order: it fails with
    the first pod-check error it meets; otherwise the first Deployment or
    StatefulSet that cannot be fetched, is not found or is not ready ends
    the tick as not ready (a get error never fails the task); resources of
    other kinds only go through the pod check.  The [err] variable the
    loop threads never changes the outcome. *)
Theorem tick_loop_outcome (c : Cluster) (labelMaps : list Labels) (rs : list Resource) :
  tick_loop c labelMaps rs true None = tick_outcome c labelMaps rs.
Proof.
  induction rs as [|r rs IH]; simpl; [reflexivity|].
  destruct (workLoadDeployStat c labelMaps (PodOwnerUID r)) as [e|]; [reflexivity|].
  unfold resource_ready.
  destruct (String.eqb (Kind r) setting.Deployment).
  - destruct (cl_get_deployment c (Name r)) as [[d|]|e]; simpl; [|reflexivity|reflexivity].
    destruct (deployment_ready d); simpl; [exact IH|reflexivity].
  - destruct (String.eqb (Kind r) setting.StatefulSet); [|exact IH].
    destruct (cl_get_statefulset c (Name r)) as [[s|]|e]; simpl; [|reflexivity|reflexivity].
    destruct (statefulset_ready s); simpl; [exact IH|reflexivity].
Qed.

Lemma owner_uid_loop_other sort_slice c rs acc :
  Forall (fun r => Kind r <> setting.Deployment /\ Kind r <> setting.StatefulSet) rs ->
  owner_uid_loop sort_slice c rs acc = SetupOk (acc ++ rs)%list.
Proof.
  intros F. revert acc. induction F as [|r rs [Hd Hs] F IH]; intros acc; simpl.
  - rewrite app_nil_r. reflexivity.
  - rewrite (proj2 (String.eqb_neq _ _) Hs), (proj2 (String.eqb_neq _ _) Hd).
    rewrite IH, <- app_assoc. reflexivity.
Qed.

(** Wait does not wait for CronJobs: when no tracked resource is a
    Deployment or a StatefulSet (in particular when none is tracked) and
    the pod check passes for each of them, Wait sets Passed on its first
    poll tick and returns. *)
Theorem wait_passes_without_workloads
  (sort_slice : (ReplicaSet -> ReplicaSet -> bool) -> list ReplicaSet -> list ReplicaSet)
  (setup c : Cluster) (events : list Event) (t : Task) :
  SkipWaiting t = false ->
  Forall (fun r => Kind r <> setting.Deployment /\ Kind r <> setting.StatefulSet /\
                   workLoadDeployStat c (RelatedPodLabels t) (PodOwnerUID r) = None)
         (ReplaceResources t) ->
  Wait sort_slice setup (EvDefault c :: events) t = (set_status t StatusPassed, WaitReturned).
Proof.
  intros Sk F. unfold Wait, getResourcesPodOwnerUID. rewrite Sk.
  rewrite owner_uid_loop_other; [|revert F; apply Forall_impl; tauto]. simpl.
  rewrite tick_loop_outcome.
  assert (T : tick_outcome c (RelatedPodLabels t) (ReplaceResources t) = TickReady true).
  { induction F as [|r rs [Hd [Hs Hw]] F IH]; simpl; [reflexivity|].
    rewrite Hw. unfold resource_ready.
    rewrite (proj2 (String.eqb_neq _ _) Hd), (proj2 (String.eqb_neq _ _) Hs). exact IH. }
  rewrite T. reflexivity.
Qed.

(** *** The pod check and the fingerprints *)

(** no owned pod of the listing has a container waiting with one of the
    four reasons *)
Definition no_fatal_owned (uid : string) (ps : list Pod) : Prop :=
  Forall (fun p => IsOwnerMatched p uid = true ->
            Forall (fun cs => ~ fatal_status cs) (pod_init_statuses p ++ pod_statuses p)) ps.

Lemma scan_pods_none_iff uid ps : scan_pods uid ps = None <-> no_fatal_owned uid ps.
Proof.
  unfold no_fatal_owned. split.
  - intros H. apply Forall_forall. intros p Hp Ho. apply Forall_forall. intros cs Hcs Hf.
    exact (scan_pods_fatal uid ps p Hp Ho (scan_statuses_fatal _ _ cs Hcs Hf) H).
  - intros F. destruct (scan_pods uid ps) as [e|] eqn:E; [|reflexivity].
    destruct (scan_pods_some uid ps e E) as [p [Hp [Ho Hs]]].
    destruct (scan_statuses_some _ _ _ Hs) as [cs [r [m [Hcs [Hw [Hf _]]]]]].
    rewrite Forall_forall in F. specialize (F p Hp Ho). rewrite Forall_forall in F.
    exfalso. apply (F cs Hcs). exists r, m. auto.
Qed.

(** The pod check of a tracked resource passes exactly when every label
    set's pod listing succeeds and no listed pod owned by the resource's
    fingerprint has an init or regular container waiting with reason
    ImagePullBackOff, ErrImagePull, CrashLoopBackOff or ErrImageNeverPull;
    pods of other owners (an older ReplicaSet's) and other waiting reasons
    never fail it.  A failed listing, reached after listings that passed,
    fails the check with the listing's own error. *)
Theorem workLoadDeployStat_none_iff (c : Cluster) (labelMaps : list Labels) (uid : string) :
  (workLoadDeployStat c labelMaps uid = None <->
   exists podss, Forall2 (fun l ps => cl_list_pods c l = Ok ps) labelMaps podss /\
                 Forall (no_fatal_owned uid) podss) /\
  (forall pre l post podss e,
     labelMaps = (pre ++ l :: post)%list ->
     Forall2 (fun l ps => cl_list_pods c l = Ok ps) pre podss ->
     Forall (no_fatal_owned uid) podss ->
     cl_list_pods c l = Err e ->
     workLoadDeployStat c labelMaps uid = Some e).
Proof.
  split.
  - induction labelMaps as [|l ls IH]; simpl.
    + split; [intros _; exists []; auto|reflexivity].
    + destruct (cl_list_pods c l) as [ps|e] eqn:El.
      * destruct (scan_pods uid ps) as [e|] eqn:Es.
        -- split; [discriminate|]. intros [podss [F2 F]]. inversion F2 as [|l0 ps0 ls0 pss H1 H2]; subst.
           rewrite El in H1. injection H1 as <-. inversion F as [|x y Hx Hy]; subst.
           apply scan_pods_none_iff in Hx. congruence.
        -- rewrite IH. split.
           ++ intros [podss [F2 F]]. exists (ps :: podss). split; constructor; auto.
              apply scan_pods_none_iff. exact Es.
           ++ intros [podss [F2 F]]. inversion F2 as [|l0 ps0 ls0 pss H1 H2]; subst.
              inversion F as [|x y Hx Hy]; subst. exists pss. auto.
      * split; [discriminate|]. intros [podss [F2 F]]. inversion F2; subst. congruence.
  - intros pre l post podss e -> F2. revert podss F2. induction pre as [|l0 pre IH];
      intros podss F2 F He; inversion F2; subst; simpl.
    + rewrite He. reflexivity.
    + match goal with H : cl_list_pods c l0 = Ok _ |- _ => rewrite H end.
      inversion F; subst.
      match goal with H : no_fatal_owned uid ?ps |- context [scan_pods uid ?ps] =>
        rewrite (proj2 (scan_pods_none_iff uid ps) H) end.
      eapply IH; eauto.
Qed.

(** sort.Slice's contract for the less function [newer]: the result is a
    permutation of its input, newest first *)
Definition sort_contract
    (sort_slice : (ReplicaSet -> ReplicaSet -> bool) -> list ReplicaSet -> list ReplicaSet) : Prop :=
  forall l, Permutation l (sort_slice newer l) /\
            StronglySorted (fun a b => newer b a = false) (sort_slice newer l).

Lemma sorted_top sort_slice l top rest :
  sort_contract sort_slice -> sort_slice newer l = top :: rest ->
  In top l /\ forall x, In x l -> (rs_creation x <= rs_creation top)%Z.
Proof.
  intros Hs E. destruct (Hs l) as [P S]. rewrite E in P, S. split.
  - apply (Permutation_in _ (Permutation_sym P)). left; reflexivity.
  - intros x Hx. apply (Permutation_in _ P) in Hx. destruct Hx as [<-|Hx]; [lia|].
    apply StronglySorted_inv in S as [_ F]. rewrite Forall_forall in F.
    specialize (F x Hx). unfold newer in F. apply Z.ltb_ge in F. lia.
Qed.

Lemma NoDup_map_inj {A B} (f : A -> B) l x y :
  NoDup (map f l) -> In x l -> In y l -> f x = f y -> x = y.
Proof.
  induction l as [|a l IH]; simpl; [tauto|]. intros N Hx Hy E.
  inversion N as [|b lb Hn N']; subst.
  destruct Hx as [<-|Hx], Hy as [<-|Hy]; auto.
  - exfalso. apply Hn. rewrite E. apply in_map. exact Hy.
  - exfalso. apply Hn. rewrite <- E. apply in_map. exact Hx.
Qed.

Lemma sorted_heads_agree s1 s2 l :
  sort_contract s1 -> sort_contract s2 -> NoDup (map rs_creation l) ->
  match s1 newer l, s2 newer l with
  | t1 :: _, t2 :: _ => t1 = t2
  | [], [] => True
  | _, _ => False
  end.
Proof.
  intros H1 H2 N.
  destruct (s1 newer l) as [|t1 r1] eqn:E1, (s2 newer l) as [|t2 r2] eqn:E2; auto.
  - destruct (H1 l) as [P _]. destruct (H2 l) as [P2 _]. rewrite E1 in P. rewrite E2 in P2.
    apply Permutation_sym, Permutation_nil in P. subst l. apply Permutation_nil in P2.
    discriminate.
  - destruct (H1 l) as [P _]. destruct (H2 l) as [P2 _]. rewrite E2 in P2. rewrite E1 in P.
    apply Permutation_sym, Permutation_nil in P2. subst l. apply Permutation_nil in P.
    discriminate.
  - destruct (sorted_top s1 l t1 r1 H1 E1) as [In1 M1].
    destruct (sorted_top s2 l t2 r2 H2 E2) as [In2 M2].
    apply (NoDup_map_inj rs_creation l t1 t2 N In1 In2).
    specialize (M1 t2 In2). specialize (M2 t1 In1). lia.
Qed.

(** When the ReplicaSets a tracked Deployment controls have pairwise
    distinct creation timestamps, the fingerprints do not depend on the
    sort implementation: any two sorts meeting sort.Slice's contract give
    the same outcome of getResourcesPodOwnerUID (results, partial results
    and errors alike). *)
Theorem getResourcesPodOwnerUID_sort_independent s1 s2 (c : Cluster) (rs : list Resource) :
  sort_contract s1 -> sort_contract s2 ->
  (forall r d rsets, In r rs -> Kind r = setting.Deployment ->
     cl_get_deployment c (Name r) = Ok (Some d) -> cl_list_replicasets c d = Ok rsets ->
     NoDup (map rs_creation (filter (fun x => IsControlledBy x d) rsets))) ->
  getResourcesPodOwnerUID s1 c rs = getResourcesPodOwnerUID s2 c rs.
Proof.
  intros H1 H2 Hn. unfold getResourcesPodOwnerUID. generalize (@nil Resource) as acc.
  induction rs as [|r rs IH]; intros acc; simpl; [reflexivity|].
  assert (IH' : forall acc, owner_uid_loop s1 c rs acc = owner_uid_loop s2 c rs acc).
  { apply IH. intros r0 d rsets Hr. apply Hn. right; exact Hr. }
  destruct (String.eqb (Kind r) setting.StatefulSet).
  - destruct (cl_get_statefulset c (Name r)) as [[s|]|e]; auto.
  - destruct (String.eqb (Kind r) setting.Deployment) eqn:Ed; [|apply IH'].
    apply String.eqb_eq in Ed.
    destruct (cl_get_deployment c (Name r)) as [[d|]|e] eqn:Eg; auto.
    destruct (cl_list_replicasets c d) as [rsets|e] eqn:El; auto.
    pose proof (sorted_heads_agree s1 s2 _ H1 H2 (Hn r d rsets (or_introl eq_refl) Ed Eg El)) as A.
    destruct (filter (fun x => IsControlledBy x d) rsets) as [|o os]; [reflexivity|].
    destruct (s1 newer (o :: os)) as [|t1 r1], (s2 newer (o :: os)) as [|t2 r2];
      try contradiction; [reflexivity|]. subst t2. apply IH'.
Qed.

Lemma owner_uid_loop_app sort_slice c pre post acc :
  owner_uid_loop sort_slice c (pre ++ post) acc =
  match owner_uid_loop sort_slice c pre acc with
  | SetupOk acc' => owner_uid_loop sort_slice c post acc'
  | other => other
  end.
Proof.
  revert acc. induction pre as [|r pre IH]; intros acc; simpl; [reflexivity|].
  destruct (String.eqb (Kind r) setting.StatefulSet).
  - destruct (cl_get_statefulset c (Name r)) as [[s|]|e]; auto.
  - destruct (String.eqb (Kind r) setting.Deployment); [|apply IH].
    destruct (cl_get_deployment c (Name r)) as [[d|]|e]; auto.
    destruct (cl_list_replicasets c d) as [rsets|e]; auto.
    destruct (filter (fun x => IsControlledBy x d) rsets) as [|o os]; auto.
    destruct (sort_slice newer (o :: os)) as [|top rest]; auto.
Qed.

(** When a tracked Deployment controls none of the ReplicaSets listed with
    its selector (none listed, or only other owners'), and the resources
    before it were fingerprinted, Wait records "get resource owner info
    error: no replicaset found for deployment: <name>", leaves the status
    as it was and returns without polling. *)
Theorem wait_no_owned_replicaset
  (sort_slice : (ReplicaSet -> ReplicaSet -> bool) -> list ReplicaSet -> list ReplicaSet)
  (setup : Cluster) (events : list Event) (t : Task)
  (pre : list Resource) (r : Resource) (post done : list Resource)
  (d : WorkloadStatus) (rsets : list ReplicaSet) :
  SkipWaiting t = false -> ReplaceResources t = (pre ++ r :: post)%list ->
  getResourcesPodOwnerUID sort_slice setup pre = SetupOk done ->
  Kind r = setting.Deployment -> cl_get_deployment setup (Name r) = Ok (Some d) ->
  cl_list_replicasets setup d = Ok rsets ->
  (forall x, In x rsets -> IsControlledBy x d = false) ->
  Wait sort_slice setup events t =
    (set_error t ("get resource owner info error: no replicaset found for deployment: "
                  ++ ws_name d), WaitReturned).
Proof.
  intros Sk Hrs Hpre Hk Hg Hl Hno. unfold Wait. rewrite Sk, Hrs.
  unfold getResourcesPodOwnerUID in *. rewrite owner_uid_loop_app, Hpre. simpl.
  rewrite Hk. change (String.eqb setting.Deployment setting.StatefulSet) with false.
  rewrite String.eqb_refl, Hg, Hl.
  assert (F : filter (fun x => IsControlledBy x d) rsets = []).
  { clear - Hno. induction rsets as [|x xs IH]; simpl; [reflexivity|].
    rewrite (Hno x (or_introl eq_refl)). apply IH. intros y Hy. apply Hno. right; exact Hy. }
  rewrite F. reflexivity.
Qed.

(** *** Helpers *)

Lemma string_length_app a b : String.length (a ++ b) = String.length a + String.length b.
Proof. induction a as [|ch a IH]; simpl; auto. Qed.

Lemma substring_0_full s : substring 0 (String.length s) s = s.
Proof. induction s as [|ch s IH]; simpl; [reflexivity|]. rewrite IH. reflexivity. Qed.

Lemma substring_prefix c s : substring 0 (String.length c) (c ++ s) = c.
Proof.
  induction c as [|ch c IH]; simpl; [destruct s; reflexivity|]. rewrite IH. reflexivity.
Qed.

Lemma substring_suffix c s : substring (String.length c) (String.length s) (c ++ s) = s.
Proof. induction c as [|ch c IH]; simpl; [apply substring_0_full|exact IH]. Qed.

Lemma substring_split s m :
  m <= String.length s -> (substring 0 m s ++ substring m (String.length s - m) s)%string = s.
Proof.
  revert m. induction s as [|ch s IH]; intros m Hm; simpl in *.
  - assert (m = 0) as -> by lia. reflexivity.
  - destruct m as [|m]; simpl.
    + rewrite substring_0_full. reflexivity.
    + rewrite IH by lia. reflexivity.
Qed.

(** The container name Run looks for is ContainerName with one trailing
    "_<service>" removed: a name built as c ++ "_<service>" gives c (only
    one suffix is stripped), and a name that does not end with the suffix
    is used unchanged. *)
Theorem TrimSuffix_container_name :
  (forall c suffix : string, TrimSuffix (c ++ suffix) suffix = c) /\
  (forall s suffix : string, (forall c, s <> (c ++ suffix)%string) -> TrimSuffix s suffix = s).
Proof.
  split.
  - intros c suffix. unfold TrimSuffix. rewrite string_length_app.
    replace (String.length c + String.length suffix - String.length suffix)
      with (String.length c) by lia.
    rewrite substring_suffix, String.eqb_refl.
    replace (String.length suffix <=? String.length c + String.length suffix)%nat with true
      by (symmetry; apply Nat.leb_le; lia).
    simpl. apply substring_prefix.
  - intros s suffix H. unfold TrimSuffix.
    destruct (String.length suffix <=? String.length s)%nat eqn:E1; [|reflexivity].
    destruct (String.eqb (substring (String.length s - String.length suffix)
                            (String.length suffix) s) suffix) eqn:E2; [|reflexivity].
    exfalso. apply Nat.leb_le in E1. apply String.eqb_eq in E2.
    apply (H (substring 0 (String.length s - String.length suffix) s)).
    pose proof (substring_split s (String.length s - String.length suffix) ltac:(lia)) as Hs.
    replace (String.length s - (String.length s - String.length suffix))
      with (String.length suffix) in Hs by lia.
    rewrite E2 in Hs. exact (eq_sym Hs).
Qed.

(** serviceDeployed answers false exactly for a non-nil strategy map that
    maps the service to the import strategy; a nil map, and (the import
    strategy being a non-empty string) a map without the service, both
    answer true. *)
Theorem serviceDeployed_only_import (import svc : string) :
  import <> "" ->
  serviceDeployed import None svc = true /\
  (forall m, find (fun kv => String.eqb (fst kv) svc) m = None ->
             serviceDeployed import (Some m) svc = true) /\
  (forall strategy, serviceDeployed import strategy svc = false <->
                    exists m, strategy = Some m /\ map_get m svc = import).
Proof.
  intros Hi. split; [reflexivity|]. split.
  - intros m Hf. unfold serviceDeployed, map_get. rewrite Hf.
    destruct (String.eqb "" import) eqn:E; [|reflexivity].
    apply String.eqb_eq in E. congruence.
  - intros [m|]; simpl.
    + destruct (String.eqb (map_get m svc) import) eqn:E.
      * apply String.eqb_eq in E. split; [intros _|reflexivity]. exists m. auto.
      * split; [discriminate|]. intros [m' [Hm He]]. injection Hm as <-.
        apply String.eqb_neq in E. contradiction.
    + split; [discriminate|]. intros [m' [Hm _]]. discriminate.
Qed.

(** TaskTimeout replaces a zero timeout by the default once and returns
    the value it leaves in the field; calling it again returns the same
    value and changes nothing; any non-zero timeout (a negative one
    included) is kept. *)
Theorem TaskTimeout_defaults_once (DeployTimeout timeout : Z) :
  snd (TaskTimeout DeployTimeout timeout) = fst (TaskTimeout DeployTimeout timeout) /\
  TaskTimeout DeployTimeout (fst (TaskTimeout DeployTimeout timeout))
    = TaskTimeout DeployTimeout timeout /\
  (timeout <> 0 -> fst (TaskTimeout DeployTimeout timeout) = timeout)%Z /\
  (timeout = 0 -> fst (TaskTimeout DeployTimeout timeout) = DeployTimeout)%Z.
Proof.
  unfold TaskTimeout. destruct (timeout =? 0)%Z eqn:E; simpl.
  - apply Z.eqb_eq in E. subst. split; [reflexivity|]. split.
    + destruct (DeployTimeout =? 0)%Z; reflexivity.
    + split; [intros H; contradiction|intros _; reflexivity].
  - rewrite E. apply Z.eqb_neq in E. split; [reflexivity|]. split; [reflexivity|].
    split; intros H; [reflexivity|contradiction].
Qed.

(** *** The manifest fallback *)

(** a rendered manifest the loop of fetchWorkloadsForImportedService gets
    nothing from: it does not decode, is of another kind, or names a
    workload the getter does not return *)
Definition manifest_skipped (env : RunEnv) (m : option (string * string)) : Prop :=
  match m with
  | None => True
  | Some (kind, name) =>
      (kind = setting.Deployment -> forall d, env_get_deployment env name <> Ok (Some d)) /\
      (kind = setting.StatefulSet -> forall s, env_get_statefulset env name <> Ok (Some s)) /\
      (kind = setting.CronJob -> forall c b, env_get_cronjob env name <> Ok (c, b, true))
  end.

Lemma imported_loop_app env ms1 ms2 acc :
  imported_loop env (ms1 ++ ms2) acc = imported_loop env ms2 (imported_loop env ms1 acc).
Proof.
  revert acc. induction ms1 as [|[[kind name]|] ms1 IH]; intros acc; simpl; auto.
Qed.

(** fetchWorkloadsForImportedService fails only when the rendered
    manifests cannot be fetched, with that error.  A manifest that does not
    decode, is of another kind, or names a workload whose lookup fails or
    finds nothing is skipped: removing it changes nothing, whatever its
    position. *)
Theorem imported_service_skips (env : RunEnv) :
  (forall e, fetchWorkloadsForImportedService env = Err e <-> env_manifests env = Err e) /\
  (forall ms1 m ms2 acc, manifest_skipped env m ->
     imported_loop env (ms1 ++ m :: ms2) acc = imported_loop env (ms1 ++ ms2) acc).
Proof.
  split.
  - intros e. unfold fetchWorkloadsForImportedService.
    destruct (env_manifests env); split; congruence.
  - intros ms1 m ms2 acc Hm. rewrite !imported_loop_app.
    generalize (imported_loop env ms1 acc) as a. intros a.
    destruct m as [[kind name]|]; [|reflexivity]. destruct Hm as [Hd [Hs Hc]]. simpl.
    destruct (String.eqb kind setting.Deployment) eqn:Ek.
    { apply String.eqb_eq in Ek. specialize (Hd Ek).
      destruct (env_get_deployment env name) as [[d|]|e]; [|reflexivity|reflexivity].
      exfalso. exact (Hd d eq_refl). }
    destruct (String.eqb kind setting.StatefulSet) eqn:Es.
    { apply String.eqb_eq in Es. specialize (Hs Es).
      destruct (env_get_statefulset env name) as [[s|]|e]; [|reflexivity|reflexivity].
      exfalso. exact (Hs s eq_refl). }
    destruct (String.eqb kind setting.CronJob) eqn:Ec; [|reflexivity].
    apply String.eqb_eq in Ec. specialize (Hc Ec).
    destruct (env_get_cronjob env name) as [[[c b] [|]]|e]; try reflexivity.
    exfalso. exact (Hc c b eq_refl).
Qed.

(** *** The further properties at concrete inputs *)

(** a second Deployment with a container [api], listed after the first *)
Definition deploy_w2 : Workload :=
  mkWorkload "shop-dev" "myservice-canary" [mkContainerSpec "api" "repo/app:1.0"]
    [("app", "myservice-canary")].

Definition wl_two : Workloads := mkWorkloads [deploy_w; deploy_w2] [] [] [].

(** unknown WorkloadType, two Deployments with container [api], every
    update succeeds *)
Definition env_two_deploys : RunEnv :=
  mkRunEnv false None None (true, None) None (Ok false) (Ok "")
    (Ok [deploy_w; deploy_w2]) (Ok []) (Ok ([], [])) (Ok [])
    (fun _ => Ok None) (fun _ => Ok None) (fun _ => Ok (None, None, false))
    (fun _ _ => None) (fun _ _ => None) (fun _ _ _ => None).

Definition cron_w : Workload :=
  mkWorkload "shop-dev" "myservice-nightly" [mkContainerSpec "api" "repo/app:1.0"]
    [("app", "myservice-nightly")].

(** unknown WorkloadType; the only labelled workload is a batch/v1 CronJob,
    whose patch is refused *)
Definition env_cron_fail : RunEnv :=
  mkRunEnv false None None (true, None) None (Ok false) (Ok "")
    (Ok []) (Ok []) (Ok ([cron_w], [])) (Ok [])
    (fun _ => Ok None) (fun _ => Ok None) (fun _ => Ok (None, None, false))
    (fun _ _ => None) (fun _ _ => None) (fun _ _ _ => Some "forbidden").

(** unknown WorkloadType; the label path lists one Deployment, whose patch
    succeeds, and one batch/v1 CronJob, whose patch is refused *)
Definition env_deploy_then_cron_fail : RunEnv :=
  mkRunEnv false None None (true, None) None (Ok false) (Ok "")
    (Ok [deploy_w]) (Ok []) (Ok ([cron_w], [])) (Ok [])
    (fun _ => Ok None) (fun _ => Ok None) (fun _ => Ok (None, None, false))
    (fun _ _ => None) (fun _ _ => None) (fun _ _ _ => Some "forbidden").

(** the environment of [env_ok] whose product is asleep *)
Definition env_sleeping : RunEnv :=
  mkRunEnv false None None (true, None) None (Ok true) (Ok "Deployment")
    (Ok []) (Ok []) (Ok ([], [])) (Ok [])
    (env_get_deployment env_ok) (env_get_statefulset env_ok) (env_get_cronjob env_ok)
    (fun _ _ => None) (fun _ _ => None) (fun _ _ _ => None).

(** the environment of [env_ok] whose service is recorded as a Job *)
Definition env_job : RunEnv :=
  mkRunEnv false None None (true, None) None (Ok false) (Ok "Job")
    (Ok []) (Ok []) (Ok ([], [])) (Ok [])
    (env_get_deployment env_ok) (env_get_statefulset env_ok) (env_get_cronjob env_ok)
    (fun _ _ => None) (fun _ _ => None) (fun _ _ _ => None).

Definition wait_rolling : Task * WaitEnd :=
  Wait insertion_sort cluster_rolling [EvDefault cluster_rolling] task_after_run.

(** a task whose only replaced resource is a CronJob *)
Definition task_cron : Task :=
  set_resources task0 [mkResource "CronJob" "api" "repo/app:1.0" "myservice-nightly" ""].

(** insertion sort run on the reversed list: equal keys come out in
    another order *)
Definition rev_insertion_sort (less : ReplicaSet -> ReplicaSet -> bool) (l : list ReplicaSet)
    : list ReplicaSet :=
  insertion_sort less (rev l).

Lemma sort_contract_insertion_sort : sort_contract insertion_sort.
Proof. intros l. split; [apply insertion_sort_perm|apply insertion_sort_sorted]. Qed.

Lemma sort_contract_rev_insertion_sort : sort_contract rev_insertion_sort.
Proof.
  intros l. unfold rev_insertion_sort. split; [|apply insertion_sort_sorted].
  eapply perm_trans; [apply Permutation_rev|apply insertion_sort_perm].
Qed.

Definition rs_foreign : ReplicaSet := mkReplicaSet "uid-rs-9" (Some "uid-other") 50.

(** the Deployment of the task is there, but its selector only matches a
    ReplicaSet controlled by another object *)
Definition cluster_orphan : Cluster :=
  mkCluster
    (fun n => if String.eqb n "myservice" then Ok (Some deploy_status_rolling) else Ok None)
    (fun _ => Ok None) (fun _ => Ok [rs_foreign]) (fun _ => Ok []).

Lemma serviceDeployed_only_import_witness :
  "import" <> "" /\
  serviceDeployed "import" (Some [("myservice", "import")]) "myservice" = false.
Proof.
  assert (H : "import" <> "") by discriminate. split; [exact H|].
  apply (proj2 (proj2 (proj2 (serviceDeployed_only_import "import" "myservice" H))
                  (Some [("myservice", "import")]))).
  exists [("myservice", "import")]. split; reflexivity.
Defined.

Lemma run_unknown_labels_lockstep_witness :
  exists newR newL,
    ReplaceResources (fst (Run env_partial task0)) = (ReplaceResources task0 ++ newR)%list /\
    RelatedPodLabels (fst (Run env_partial task0)) = (RelatedPodLabels task0 ++ newL)%list /\
    Forall2 (fun r l => exists w, In w (all_workloads (mkWorkloads [deploy_w] [sts_w] [] [])) /\
                                  Name r = w_name w /\ l = w_template_labels w) newR newL.
Proof.
  apply (run_unknown_labels_lockstep env_partial task0 (mkWorkloads [deploy_w] [sts_w] [] []));
    reflexivity.
Defined.

Lemma run_unknown_patches_first_match_witness :
  ReplaceResources (fst (Run env_two_deploys task0)) =
    [mkResource "Deployment" "api" "repo/app:1.0" "myservice" ""].
Proof.
  assert (H1 : run_prepare env_two_deploys task0 = Continue) by reflexivity.
  assert (H2 : env_service env_two_deploys = Ok "") by reflexivity.
  assert (H3 : fst (fetchRelatedWorkloads env_two_deploys) = Ok wl_two) by reflexivity.
  assert (H4 : forall ns n, env_update_deployment env_two_deploys ns n = None)
    by (intros; reflexivity).
  assert (H5 : forall ns n, env_update_statefulset env_two_deploys ns n = None)
    by (intros; reflexivity).
  assert (H6 : forall ns n, env_update_cronjob env_two_deploys ns n false = None)
    by (intros; reflexivity).
  pose proof (run_unknown_patches_first_match env_two_deploys task0 wl_two H1 H2 H3 H4 H5 H6)
    as H.
  cbv zeta in H. destruct H as [H _]. rewrite H. reflexivity.
Defined.

Lemma run_unknown_cron_error_says_statefulsets_witness :
  snd (Run env_deploy_then_cron_fail task0) = ExitReturn /\
  TaskStatus (fst (Run env_deploy_then_cron_fail task0)) = StatusFailed /\
  Error (fst (Run env_deploy_then_cron_fail task0)) =
    "failed to update container image in shop-dev/statefulsets/myservice-nightly/api: forbidden" /\
  ReplaceResources (fst (Run env_deploy_then_cron_fail task0)) =
    [mkResource "Deployment" "api" "repo/app:1.0" "myservice" ""].
Proof.
  assert (H1 : run_prepare env_deploy_then_cron_fail task0 = Continue) by reflexivity.
  assert (H2 : env_service env_deploy_then_cron_fail = Ok "") by reflexivity.
  assert (H3 : fst (fetchRelatedWorkloads env_deploy_then_cron_fail)
               = Ok (mkWorkloads [deploy_w] [] [cron_w] [])) by reflexivity.
  pose proof (run_unknown_cron_error_says_statefulsets env_deploy_then_cron_fail task0
                (mkWorkloads [deploy_w] [] [cron_w] []) cron_w
                (mkContainerSpec "api" "repo/app:1.0") "forbidden" H1 H2 H3) as H.
  cbv zeta in H.
  destruct H as [Hx [Hy [Hz Hw]]].
  - intros wd cd _. reflexivity.
  - intros ws cs _. reflexivity.
  - reflexivity.
  - reflexivity.
  - split; [exact Hx|]. split; [exact Hy|]. split; [exact Hz|exact Hw].
Defined.

Lemma run_product_check_witness :
  Run env_sleeping task0 =
    (finalize (Some ("product " ++ ProductName task0 ++ "/" ++ EnvName task0
                     ++ " is sleeping")) task0, ExitReturn).
Proof.
  assert (H1 : DeployClusterID_set env_sleeping = false \/
               (env_rest_config env_sleeping = None /\ env_kube_client env_sleeping = None /\
                env_kube_clientset env_sleeping = (true, None))) by (left; reflexivity).
  assert (H2 : env_server_version env_sleeping = None) by reflexivity.
  apply (proj1 (run_product_check env_sleeping task0 H1 H2)). reflexivity.
Defined.

Lemma run_known_path_edges_witness :
  Run env_job task0 =
    (finalize (Some ("container " ++ TrimSuffix (ContainerName task0) ("_" ++ ServiceName task0)
                     ++ " is not found in resources ")) task0, ExitReturn).
Proof.
  assert (H1 : run_prepare env_job task0 = Continue) by reflexivity.
  assert (H2 : env_service env_job = Ok "Job") by reflexivity.
  pose proof (run_known_path_edges env_job task0 "Job" H1 H2) as H.
  cbv zeta in H. destruct H as [H _]. apply H; discriminate.
Defined.

Lemma wait_frame_witness :
  same_identity task_after_run (fst wait_rolling) /\
  RelatedPodLabels (fst wait_rolling) = RelatedPodLabels task_after_run /\
  ReplaceResources (fst wait_rolling) =
    match SkipWaiting task_after_run,
          getResourcesPodOwnerUID insertion_sort cluster_rolling (ReplaceResources task_after_run)
    with
    | false, SetupOk rs => rs
    | _, _ => ReplaceResources task_after_run
    end.
Proof.
  apply (wait_frame insertion_sort cluster_rolling [EvDefault cluster_rolling] task_after_run
           (fst wait_rolling) (snd wait_rolling)).
  reflexivity.
Defined.

Lemma wait_passes_without_workloads_witness :
  Wait insertion_sort cluster_down [EvDefault cluster_down] task_cron =
    (set_status task_cron StatusPassed, WaitReturned).
Proof.
  apply (wait_passes_without_workloads insertion_sort cluster_down cluster_down [] task_cron).
  - reflexivity.
  - constructor; [|constructor]. split; [discriminate|split; [discriminate|reflexivity]].
Defined.

Lemma getResourcesPodOwnerUID_sort_independent_witness :
  getResourcesPodOwnerUID insertion_sort cluster_rolling (ReplaceResources task_after_run) =
  getResourcesPodOwnerUID rev_insertion_sort cluster_rolling (ReplaceResources task_after_run).
Proof.
  apply (getResourcesPodOwnerUID_sort_independent insertion_sort rev_insertion_sort
           cluster_rolling (ReplaceResources task_after_run)).
  - exact sort_contract_insertion_sort.
  - exact sort_contract_rev_insertion_sort.
  - intros r d rsets Hin _ Hg Hl. simpl in Hin. destruct Hin as [<-|[]].
    simpl in Hg. injection Hg as <-. simpl in Hl. injection Hl as <-. simpl.
    constructor; [intros [E|[]]; discriminate|constructor; [intros []|constructor]].
Defined.

Lemma wait_no_owned_replicaset_witness :
  Wait insertion_sort cluster_orphan [] task_after_run =
    (set_error task_after_run ("get resource owner info error: no replicaset found for deployment: "
                               ++ ws_name deploy_status_rolling), WaitReturned).
Proof.
  apply (wait_no_owned_replicaset insertion_sort cluster_orphan [] task_after_run []
           (mkResource "Deployment" "api" "repo/app:1.0" "myservice" "") [] []
           deploy_status_rolling [rs_foreign]); try reflexivity.
  intros x [<-|[]]. reflexivity.
Defined.
